(** * macro_trace: the Yahoo Finance proxy of [back.js]

    A shallow embedding of the server's token handshake ([initCrumb]), its
    quote and history fetchers ([fetchQuote], [fetchHistory]) and its three
    routes, followed by the properties stated about them.

    - JavaScript numbers are IEEE-754 binary64 values; they are embedded as
      Rocq's primitive floats, so every arithmetic step below is the one the
      program performs.
    - An [async] function is embedded as a tree of synchronous steps and
      suspensions ([async]).  A tree is run either alone against an upstream
      ([exec]) or interleaved with the other tasks of a batch ([spawn],
      [pool_step], [run_schedule]).
    - [fetchQuote] calls itself without a bound; its embedding takes the
      depth of recursion it may use, and a run that needs more is [Pending].
    - The module-level variables, the cache and the [results] object of a
      batch are fields of one [State]; objects used as maps are finite maps
      over string keys. *)

From Stdlib Require Import ZArith Floats Lia Ascii.
From stdpp Require Import gmap strings list pretty.

Local Open Scope Z_scope.

(** ** JavaScript values met in a chart payload *)

Module JS.

(** A field of the upstream JSON is a number, [null], or missing
    ([undefined] when read). *)
Inductive value : Type :=
| Undefined
| Null
| Number (x : float).

(** [Boolean(v)]: [undefined], [null], [0], [-0] and [NaN] are falsy. *)
Definition truthy (v : value) : bool :=
  match v with
  | Number x => negb (PrimFloat.eqb x PrimFloat.zero || PrimFloat.is_nan x)
  | Undefined | Null => false
  end.

(** [a || b] *)
Definition or (a b : value) : value := if truthy a then a else b.

(** [ToNumber]: [undefined] gives [NaN], [null] gives [+0]. *)
Definition to_number (v : value) : float :=
  match v with
  | Undefined => PrimFloat.nan
  | Null => PrimFloat.zero
  | Number x => x
  end.

Definition sub (a b : value) : float := PrimFloat.sub (to_number a) (to_number b).
Definition div (a : float) (b : value) : float := PrimFloat.div a (to_number b).

(** [a >= b] on numbers: false as soon as one side is [NaN]. *)
Definition ge (a b : value) : bool := PrimFloat.leb (to_number b) (to_number a).

(** A number that is neither [NaN], nor infinite, nor a zero. *)
Definition finite_nonzero (x : float) : bool :=
  negb (PrimFloat.is_nan x || PrimFloat.is_infinity x || PrimFloat.is_zero x).

(** [v !== null] *)
Definition not_null (v : value) : bool :=
  match v with Null => false | _ => true end.

(** [Math.max(...xs)] and [Math.min(...xs)]; the empty spread gives
    [-Infinity] and [+Infinity].  They are only applied to arrays that went
    through [filter(Boolean)], which hold neither zeros nor [NaN]. *)
Definition max2 (acc x : float) : float :=
  if PrimFloat.is_nan acc || PrimFloat.is_nan x then PrimFloat.nan
  else if PrimFloat.ltb acc x then x else acc.
Definition min2 (acc x : float) : float :=
  if PrimFloat.is_nan acc || PrimFloat.is_nan x then PrimFloat.nan
  else if PrimFloat.ltb x acc then x else acc.
Definition math_max (xs : list value) : float :=
  foldl max2 PrimFloat.neg_infinity (to_number <$> xs).
Definition math_min (xs : list value) : float :=
  foldl min2 PrimFloat.infinity (to_number <$> xs).

(** [xs.find(Boolean)] *)
Definition find_truthy (xs : list value) : value :=
  match List.find truthy xs with Some v => v | None => Undefined end.

(** A primitive string is truthy unless it is empty; [null] is falsy. *)
Definition truthy_str (s : option string) : bool :=
  match s with
  | Some (String _ _) => true
  | Some EmptyString | None => false
  end.

End JS.

(** ** The chart payload and the Quote Record *)

(** [json.chart.result[0].meta] *)
Record Meta := {
  regularMarketPrice : JS.value;
  chartPreviousClose : JS.value;
  meta_previousClose : JS.value;
  regularMarketDayHigh : JS.value;
  regularMarketDayLow : JS.value
}.

(** [json.chart.result[0].indicators.quote[0]]; an array that is absent or
    [null] is [None]. *)
Record Bars := {
  bar_open : option (list JS.value);
  bar_high : option (list JS.value);
  bar_low : option (list JS.value);
  bar_close : option (list JS.value)
}.

(** [json.chart.result[0]] *)
Record Chart := {
  meta : Meta;
  quote0 : Bars;
  chart_timestamp : option (list JS.value)
}.

(** The object literal returned by [fetchQuote]; [timestamp] is the reading
    of the clock that [toISOString] prints. *)
Record Quote := {
  price : JS.value;
  change : float;
  changePercent : float;
  high : JS.value;
  low : JS.value;
  open : JS.value;
  previousClose : JS.value;
  isUp : bool;
  timestamp : Z
}.

Definition hundred : float := 100%float.

(** [meta.chartPreviousClose || meta.previousClose || meta.regularMarketPrice] *)
Definition prevClose (m : Meta) : JS.value :=
  JS.or (JS.or (chartPreviousClose m) (meta_previousClose m)) (regularMarketPrice m).

(** Lines 64-76 of [fetchQuote]: the record built from a parsed payload;
    [clock] is the reading of [new Date()]. *)
Definition makeQuote (c : Chart) (clock : Z) : Quote :=
  let m := meta c in
  let q := quote0 c in
  let pc := prevClose m in
  {| price := regularMarketPrice m;
     change := JS.sub (regularMarketPrice m) pc;
     changePercent :=
       PrimFloat.mul (JS.div (JS.sub (regularMarketPrice m) pc) pc) hundred;
     high := JS.or (regularMarketDayHigh m)
               (match bar_high q with
                | Some hs => JS.Number (JS.math_max (filter (fun v => JS.truthy v = true) hs))
                | None => regularMarketPrice m
                end);
     low := JS.or (regularMarketDayLow m)
              (match bar_low q with
               | Some ls => JS.Number (JS.math_min (filter (fun v => JS.truthy v = true) ls))
               | None => regularMarketPrice m
               end);
     open := match bar_open q with
             | Some os => JS.find_truthy os
             | None => regularMarketPrice m
             end;
     previousClose := pc;
     isUp := JS.ge (regularMarketPrice m) pc;
     timestamp := clock |}.

(** A point of the history series. *)
Record HistoryPoint := { time : JS.value; hp_price : JS.value }.

(** Lines 105-112 of [fetchHistory]: [prices[i]] is [undefined] past the end
    of the array. *)
Definition zipHistory (timestamps prices : list JS.value) : list HistoryPoint :=
  filter (fun h => JS.not_null (hp_price h) = true)
    (imap (fun i t => {| time := t; hp_price := default JS.Undefined (prices !! i) |})
          timestamps).

(** ** The upstream provider *)

(** The requests the program sends.  A chart request is given by what the
    program puts into its URL (the symbol and the crumb through
    [encodeURIComponent], the range and the interval as they are) and by its
    cookie header.  The strings are well-formed text: a JavaScript string
    with a lone surrogate, on which [encodeURIComponent] throws before the
    request is made, has no counterpart among them. *)
Inductive Request : Type :=
| GetConsent
| GetCrumb (cookie : option string)
| GetChart (symbol range interval : string) (crumb_param cookie : option string).

(** A response as the program reads it: its status, the [Set-Cookie] values
    when the runtime offers [getSetCookie], and its body seen through
    [text()] and through [json()] followed by the reads down to
    [chart.result[0]], its [meta] and its [indicators.quote[0]];
    [inl message] is a failure with that message. *)
Record Response := {
  status : N;
  getSetCookie : option (list string);
  text : string + string;
  json : string + Chart
}.

Inductive Reply : Type :=
| NetworkError (message : string)
| Arrived (r : Response).

(** A reply reaches the program [elapsed] milliseconds after the request. *)
Record Answer := { elapsed : N; reply : Reply }.

(** [resp.ok] *)
Definition ok (r : Response) : bool := ((200 <=? status r) && (status r <=? 299))%N.

(** ** The process-wide state *)

(** What a cache slot or a result entry can hold. *)
Inductive Cached : Type :=
| CQuote (q : Quote)
| CHistory (h : list HistoryPoint).

(** An entry of the batch handler's [results] object. *)
Inductive Entry : Type :=
| Data (v : Cached)
| Failure (message : string).

Record CacheEntry := { ce_value : Cached; ce_expires : Z }.

(** The module-level variables [crumb], [cookieStr] and [cache], the
    [results] object of the batch request being served, the wall clock in
    milliseconds, and the requests sent upstream so far, oldest first. *)
Record State := {
  crumb : option string;
  cookieStr : option string;
  cache : gmap string CacheEntry;
  results : gmap string Entry;
  clock : Z;
  sent : list Request
}.

Definition set_crumb (v : string) (st : State) : State :=
  {| crumb := Some v; cookieStr := cookieStr st; cache := cache st;
     results := results st; clock := clock st; sent := sent st |}.
Definition set_cookieStr (v : string) (st : State) : State :=
  {| crumb := crumb st; cookieStr := Some v; cache := cache st;
     results := results st; clock := clock st; sent := sent st |}.
(** [results[key] = e] on the plain object of line 145; [results] holds the
    own properties of that object, which are what [res.json] serializes.  The
    assignment creates or replaces an own property, except under the key
    [__proto__]: there it runs the setter inherited from [Object.prototype],
    which changes the prototype of the object and creates no own property. *)
Definition set_result (key : string) (e : Entry) (st : State) : State :=
  if decide (key = "__proto__") then st
  else {| crumb := crumb st; cookieStr := cookieStr st; cache := cache st;
          results := <[key := e]> (results st); clock := clock st; sent := sent st |}.
Definition new_results (st : State) : State :=
  {| crumb := crumb st; cookieStr := cookieStr st; cache := cache st;
     results := ∅; clock := clock st; sent := sent st |}.
Definition tick (ms : N) (st : State) : State :=
  {| crumb := crumb st; cookieStr := cookieStr st; cache := cache st;
     results := results st; clock := clock st + Z.of_N ms; sent := sent st |}.
Definition send (rq : Request) (st : State) : State :=
  {| crumb := crumb st; cookieStr := cookieStr st; cache := cache st;
     results := results st; clock := clock st; sent := sent st ++ [rq] |}.

(** Modelled from the spec: the read-through cache (the [node-cache]
    instance created with [stdTTL: 30]).  [get] answers only for an entry
    that has not expired, [set] stamps the entry with its own time-to-live,
    30 seconds unless the call site gives another. *)
Definition stdTTL : Z := 30.
Definition cache_get (key : string) (st : State) : option Cached :=
  match cache st !! key with
  | Some e => if clock st <=? ce_expires e then Some (ce_value e) else None
  | None => None
  end.
Definition cache_set (key : string) (v : Cached) (ttl : Z) (st : State) : State :=
  {| crumb := crumb st; cookieStr := cookieStr st;
     cache := <[key := {| ce_value := v; ce_expires := clock st + ttl * 1000 |}]> (cache st);
     results := results st; clock := clock st; sent := sent st |}.

(** ** Asynchronous computations

    An [async] function is a tree: it reads and updates the shared state
    synchronously, and is suspended at every [await].  [Spin] marks a
    computation whose recursion budget ran out before it settled. *)
Inductive async (A : Type) : Type :=
| Ret (a : A)
| Throw (message : string)
| Spin
| Read (k : State -> async A)
| Update (f : State -> State) (k : async A)
| Await (rq : Request) (k : Reply -> async A)
| Yield (k : async A).

Arguments Ret {A} a.
Arguments Throw {A} message.
Arguments Spin {A}.
Arguments Read {A} k.
Arguments Update {A} f k.
Arguments Await {A} rq k.
Arguments Yield {A} k.

Fixpoint bind {A B : Type} (p : async A) (f : A -> async B) : async B :=
  match p with
  | Ret a => f a
  | Throw m => Throw m
  | Spin => Spin
  | Read k => Read (fun st => bind (k st) f)
  | Update g k => Update g (bind k f)
  | Await rq k => Await rq (fun r => bind (k r) f)
  | Yield k => Yield (bind k f)
  end.

(** [try { p } catch (err) { h err.message }] *)
Fixpoint try_catch {A : Type} (p : async A) (h : string -> async A) : async A :=
  match p with
  | Ret a => Ret a
  | Throw m => h m
  | Spin => Spin
  | Read k => Read (fun st => try_catch (k st) h)
  | Update g k => Update g (try_catch k h)
  | Await rq k => Await rq (fun r => try_catch (k r) h)
  | Yield k => Yield (try_catch k h)
  end.

Declare Scope async_scope.
Delimit Scope async_scope with async.
Notation "'let!' x ':=' p 'in' q" := (bind p (fun x => q))
  (at level 10, x name, p at level 100, q at level 200) : async_scope.
Local Open Scope async_scope.

Definition get_state : async State := Read (fun st => Ret st).
Definition modify (f : State -> State) : async unit := Update f (Ret tt).

(** [await fetch(...)]: a network failure is thrown at the await. *)
Definition fetch (rq : Request) : async Response :=
  Await rq (fun r => match r with
                     | NetworkError m => Throw m
                     | Arrived resp => Ret resp
                     end).

(** [await p] for an async call [p]: the caller is resumed in a later turn. *)
Definition await {A : Type} (p : async A) : async A :=
  let! x := p in Yield (Ret x).

(** [await resp.text()] and [await resp.json()] *)
Definition read_body {A : Type} (b : string + A) : async A :=
  Yield (match b with inl m => Throw m | inr a => Ret a end).

(** ** The program *)

(** [c.split(';')[0]] *)
Fixpoint first_field (c : string) : string :=
  match c with
  | EmptyString => EmptyString
  | String a rest => if Ascii.eqb a ";"%char then EmptyString else String a (first_field rest)
  end.

(** [xs.join(sep)] *)
Fixpoint join (sep : string) (xs : list string) : string :=
  match xs with
  | [] => EmptyString
  | x :: rest =>
      match rest with
      | [] => x
      | _ :: _ => x +:+ sep +:+ join sep rest
      end
  end.

(** Lines 18-37. *)
Definition initCrumb : async bool :=
  try_catch
    (let! consentResp := fetch GetConsent in
     let setCookies := default [] (getSetCookie consentResp) in
     let! _ := modify (set_cookieStr (join "; " (first_field <$> setCookies))) in
     let! st := get_state in
     let! crumbResp := fetch (GetCrumb (cookieStr st)) in
     if negb (ok crumbResp)
     then Throw ("Crumb request failed: " +:+ pretty (status crumbResp))
     else
       let! t := read_body (text crumbResp) in
       let! _ := modify (set_crumb t) in
       Ret true)
    (fun _ => Ret false).

(** Lines 41-44, shared by both fetchers. *)
Definition ensureToken : async unit :=
  let! st := get_state in
  if negb (JS.truthy_str (crumb st)) || negb (JS.truthy_str (cookieStr st))
  then
    let! acquired := await initCrumb in
    if negb acquired then Throw "Cannot acquire Yahoo Finance crumb" else Ret tt
  else Ret tt.

(** Lines 40-77.  [budget] bounds the depth of the recursion at line 55. *)
Fixpoint fetchQuote (budget : nat) (symbol : string) : async Quote :=
  match budget with
  | O => Spin
  | S budget' =>
      let! _ := ensureToken in
      let! st := get_state in
      let! resp := fetch (GetChart symbol "1d" "1d" (crumb st) (cookieStr st)) in
      if ((status resp =? 401) || (status resp =? 403))%N
      then
        let! _ := await initCrumb in
        fetchQuote budget' symbol
      else if negb (ok resp)
      then Throw ("Yahoo API error " +:+ pretty (status resp))
      else
        let! c := read_body (json resp) in
        let! st' := get_state in
        Ret (makeQuote c (clock st'))
  end.

Definition cacheKey (symbol range : string) : string :=
  "chart_" +:+ symbol +:+ "_" +:+ range.

Definition interval_of (range : string) : string :=
  if String.eqb range "1d" then "5m"
  else if String.eqb range "5d" then "15m"
  else "1d".

(** Lines 80-116. *)
Definition fetchHistory (symbol range : string) : async Cached :=
  let! st := get_state in
  match cache_get (cacheKey symbol range) st with
  | Some cached => Ret cached
  | None =>
      let! _ := ensureToken in
      let! st1 := get_state in
      let! resp := fetch (GetChart symbol range (interval_of range) (crumb st1) (cookieStr st1)) in
      if negb (ok resp)
      then Throw ("Yahoo Chart API error " +:+ pretty (status resp))
      else
        let! c := read_body (json resp) in
        let timestamps := default [] (chart_timestamp c) in
        let prices := default [] (bar_close (quote0 c)) in
        let history := zipHistory timestamps prices in
        let! _ := modify (cache_set (cacheKey symbol range) (CHistory history) 60) in
        Ret (CHistory history)
  end.

(** ** The routes *)

Inductive Body : Type :=
| JsonValue (v : Cached)
| JsonError (message : string)
| JsonMap (m : gmap string Entry).

Record HttpResponse := { code : N; payload : Body }.

(** [app.get('/api/quote/:symbol')] *)
Definition quoteHandler (budget : nat) (symbol : string) : async HttpResponse :=
  let! st := get_state in
  match cache_get symbol st with
  | Some cached => Ret {| code := 200; payload := JsonValue cached |}
  | None =>
      try_catch
        (let! data := await (fetchQuote budget symbol) in
         let! _ := modify (cache_set symbol (CQuote data) stdTTL) in
         Ret {| code := 200; payload := JsonValue (CQuote data) |})
        (fun m => Ret {| code := 500; payload := JsonError m |})
  end.

(** [app.get('/api/history/:symbol')]; [range] is [req.query.range]. *)
Definition historyHandler (symbol : string) (range : option string) : async HttpResponse :=
  try_catch
    (let! data := await (fetchHistory symbol
                           (if JS.truthy_str range then default "1d" range else "1d")) in
     Ret {| code := 200; payload := JsonValue data |})
    (fun m => Ret {| code := 500; payload := JsonError m |}).

(** The [symbols] member of a batch request body. *)
Inductive Field : Type :=
| FAbsent
| FNull
| FString (s : string)
| FNumber (x : float)
| FObject
| FArray (symbols : list string).

(** [req.body && req.body.symbols] followed by the test of line 140: the
    symbols to serve, or nothing when the request is refused. *)
Definition batchSymbols (body : option Field) : option (list string) :=
  match body with
  | Some (FArray symbols) => if (length symbols =? 0)%nat then None else Some symbols
  | _ => None
  end.

Definition badRequest : HttpResponse :=
  {| code := 400; payload := JsonError "symbols must be a non-empty array" |}.

(** The async arrow function mapped over [symbols] (lines 147-162): what
    follows the cache miss, the body of its [try], its [catch], and the
    function itself. *)
Definition batchStore (symbol : string) (data : Quote) : async unit :=
  let! _ := modify (cache_set symbol (CQuote data) stdTTL) in
  modify (set_result symbol (Data (CQuote data))).

Definition batchBody (budget : nat) (symbol : string) : async unit :=
  let! st := get_state in
  match cache_get symbol st with
  | Some cached => modify (set_result symbol (Data cached))
  | None =>
      let! data := await (fetchQuote budget symbol) in
      batchStore symbol data
  end.

Definition batchCatch (symbol : string) (message : string) : async unit :=
  modify (set_result symbol (Failure message)).

Definition batchTask (budget : nat) (symbol : string) : async unit :=
  try_catch (batchBody budget symbol) (batchCatch symbol).

(** The task of [symbol] while its call of [fetchQuote] is running: [p] is
    what remains of that call. *)
Definition batchAround (symbol : string) (p : async Quote) : async unit :=
  try_catch (let! data := p in batchStore symbol data) (batchCatch symbol).

(** ** Running a computation against an upstream

    The upstream answers a request knowing the requests sent before it. *)

Inductive outcome (A : Type) : Type :=
| Returned (a : A)
| Threw (message : string)
| Pending.
Arguments Returned {A} a.
Arguments Threw {A} message.
Arguments Pending {A}.

Definition Upstream : Type := list Request -> Request -> Answer.

Fixpoint exec {A : Type} (up : Upstream) (p : async A) (st : State) : outcome A * State :=
  match p with
  | Ret a => (Returned a, st)
  | Throw m => (Threw m, st)
  | Spin => (Pending, st)
  | Read k => exec up (k st) st
  | Update f k => exec up k (f st)
  | Await rq k =>
      let a := up (sent st) rq in
      exec up (k (reply a)) (tick (elapsed a) (send rq st))
  | Yield k => exec up k st
  end.

(** ** Interleaved tasks

    [Promise.all] over the tasks of a batch: every task first runs up to its
    first suspension, in order; afterwards the event loop resumes one
    suspended task at a time, and the task runs up to its next suspension.
    A request is sent when the task reaches the [await] on it. *)

Fixpoint settle {A : Type} (p : async A) (st : State) : async A * State :=
  match p with
  | Read k => settle (k st) st
  | Update f k => settle k (f st)
  | Await rq _ => (p, send rq st)
  | _ => (p, st)
  end.

Definition resume {A : Type} (a : Answer) (p : async A) (st : State) : async A * State :=
  match p with
  | Await _ k => settle (k (reply a)) (tick (elapsed a) st)
  | Yield k => settle k st
  | _ => (p, st)
  end.

Fixpoint spawn {A : Type} (tasks : list (async A)) (st : State) : list (async A) * State :=
  match tasks with
  | [] => ([], st)
  | t :: ts =>
      let '(t', st1) := settle t st in
      let '(ts', st2) := spawn ts st1 in
      (t' :: ts', st2)
  end.

Fixpoint pool_step {A : Type} (i : nat) (a : Answer) (pool : list (async A)) (st : State)
  {struct pool} : list (async A) * State :=
  match pool with
  | [] => ([], st)
  | p :: ps =>
      match i with
      | O => let '(p', st') := resume a p st in (p' :: ps, st')
      | S j => let '(ps', st') := pool_step j a ps st in (p :: ps', st')
      end
  end.

Fixpoint run_schedule {A : Type} (schedule : list (nat * Answer)) (pool : list (async A))
  (st : State) : list (async A) * State :=
  match schedule with
  | [] => (pool, st)
  | (i, a) :: rest =>
      let '(pool', st') := pool_step i a pool st in
      run_schedule rest pool' st'
  end.

Definition fulfilled {A : Type} (p : async A) : bool :=
  match p with Ret _ => true | _ => false end.

Definition suspended {A : Type} (p : async A) : bool :=
  match p with Await _ _ | Yield _ => true | _ => false end.

(** What a step of the task of [symbol] amounts to, given what the same
    step makes of its call of [fetchQuote]: a failure with message [m] is
    recorded as [{error: m}], a quote is cached and recorded, and otherwise
    the task is still waiting for the call. *)
Definition batchOutcome (symbol : string) (step : async Quote * State) : async unit * State :=
  match step with
  | (Throw m, st) => (Ret tt, set_result symbol (Failure m) st)
  | (Ret data, st) =>
      (Ret tt, set_result symbol (Data (CQuote data)) (cache_set symbol (CQuote data) stdTTL st))
  | (p, st) => (batchAround symbol p, st)
  end.

(** The first rejection among the tasks, if any. *)
Fixpoint rejection {A : Type} (pool : list (async A)) : option string :=
  match pool with
  | [] => None
  | Throw m :: _ => Some m
  | _ :: ps => rejection ps
  end.

(** [app.post('/api/batch')] under a schedule of resumptions: the response
    sent once the schedule is played, if one is sent by then, and the state
    reached. *)
Definition batchHandler (budget : nat) (body : option Field)
  (schedule : list (nat * Answer)) (st : State) : option HttpResponse * State :=
  match batchSymbols body with
  | None => (Some badRequest, st)
  | Some symbols =>
      let '(pool, st1) := spawn (batchTask budget <$> symbols) (new_results st) in
      let '(pool', st2) := run_schedule schedule pool st1 in
      match rejection pool' with
      | Some m => (Some {| code := 500; payload := JsonError m |}, st2)
      | None =>
          if forallb fulfilled pool'
          then (Some {| code := 200; payload := JsonMap (results st2) |}, st2)
          else (None, st2)
      end
  end.

(** ** Assertions on computations

    [holds G R QR QT p st]: started in [st], every synchronous step of [p]
    is allowed by [G], and [p] can only return in a state satisfying [QR] or
    throw in one satisfying [QT], whatever replies it receives and whatever
    the other tasks do to the state while it is suspended, as long as they
    respect [R]. *)
Section Assertions.

Variable G : State -> State -> Prop.
Variable R : State -> State -> Prop.

Fixpoint holds {A : Type} (QR : A -> State -> Prop) (QT : string -> State -> Prop)
  (p : async A) (st : State) : Prop :=
  match p with
  | Ret a => QR a st
  | Throw m => QT m st
  | Spin => True
  | Read k => holds QR QT (k st) st
  | Update f k => G st (f st) /\ holds QR QT k (f st)
  | Await rq k =>
      G st (send rq st) /\
      forall (r : Reply) (st' : State), R (send rq st) st' -> holds QR QT (k r) st'
  | Yield k => forall st' : State, R st st' -> holds QR QT k st'
  end.

End Assertions.

(** ** The invariant of a batch

    While the batch of [symbols] is served, the cache answers with a quote
    for every listed symbol it answers for, and [results] only holds entries
    of listed symbols, never one under [__proto__], each a quote or an error
    descriptor. *)
Section BatchInvariant.

Variable symbols : list string.

Definition quote_or_error (e : Entry) : Prop :=
  (exists q, e = Data (CQuote q)) \/ (exists m, e = Failure m).

Definition quotes_cached (st : State) : Prop :=
  forall s v, s ∈ symbols -> cache_get s st = Some v -> exists q, v = CQuote q.

Definition batch_inv (st : State) : Prop :=
  quotes_cached st
  /\ forall k e, results st !! k = Some e ->
                 k ∈ symbols /\ k <> "__proto__" /\ quote_or_error e.

(** What the other tasks may do while a task is suspended: they keep the
    invariant and remove no entry. *)
Definition rely (st st' : State) : Prop :=
  (batch_inv st -> batch_inv st')
  /\ forall k, is_Some (results st !! k) -> is_Some (results st' !! k).

(** What the task of [symbol] may do in a step: the same, and it leaves the
    entries of the other symbols as they are. *)
Definition guarantee (symbol : string) (st st' : State) : Prop :=
  rely st st' /\ forall k, k <> symbol -> results st' !! k = results st !! k.

Definition recorded (symbol : string) (_ : unit) (st : State) : Prop :=
  symbol <> "__proto__" -> is_Some (results st !! symbol).

Definition never (_ : string) (_ : State) : Prop := False.

Definition task_ok (symbol : string) (p : async unit) (st : State) : Prop :=
  holds (guarantee symbol) rely (recorded symbol) never p st.

(** The same for a task found suspended, or finished, in the pool. *)
Definition suspended_ok (symbol : string) (p : async unit) (st : State) : Prop :=
  match p with
  | Ret u => recorded symbol u st
  | Throw _ => False
  | Spin => True
  | Await _ k => forall r st', rely st st' -> task_ok symbol (k r) st'
  | Yield k => forall st', rely st st' -> task_ok symbol k st'
  | Read _ | Update _ _ => False
  end.

End BatchInvariant.

(** A step that leaves the results, the cache and the clock alone. *)
Definition quiet (st st' : State) : Prop :=
  results st' = results st /\ cache st' = cache st /\ clock st' = clock st.

Definition anything (st st' : State) : Prop := True.

Definition whatever {A : Type} (_ : A) (_ : State) : Prop := True.

(** ** What a run leaves behind *)

Definition is_chart (rq : Request) : bool :=
  match rq with GetChart _ _ _ _ _ => true | _ => false end.
Definition is_consent (rq : Request) : bool :=
  match rq with GetConsent => true | _ => false end.

(** How many chart requests, and how many handshakes (each opens with its
    consent request), a log of requests holds. *)
Definition chart_requests (l : list Request) : nat := length (List.filter is_chart l).
Definition acquisitions (l : list Request) : nat := length (List.filter is_consent l).

(** The store holds a crumb and a cookie that pass the test of line 41. *)
Definition token_present (st : State) : Prop :=
  JS.truthy_str (crumb st) = true /\ JS.truthy_str (cookieStr st) = true.

(** [c] does not occur in [s]. *)
Fixpoint free_of (c : ascii) (s : string) : bool :=
  match s with
  | EmptyString => true
  | String a rest => negb (Ascii.eqb a c) && free_of c rest
  end.

(** ** The handshake, step by step *)

(** The cookie header built from a consent response (line 22-23). *)
Definition cookie_header (r : Response) : string :=
  join "; " (first_field <$> default [] (getSetCookie r)).

(** What a run of [initCrumb] against an upstream amounts to, request by
    request ([exec_initCrumb] below). *)
Definition initCrumb_run (up : Upstream) (st : State) : outcome bool * State :=
  let a1 := up (sent st) GetConsent in
  let st1 := tick (elapsed a1) (send GetConsent st) in
  match reply a1 with
  | NetworkError _ => (Returned false, st1)
  | Arrived r1 =>
      let st2 := set_cookieStr (cookie_header r1) st1 in
      let rq := GetCrumb (cookieStr st2) in
      let a2 := up (sent st2) rq in
      let st3 := tick (elapsed a2) (send rq st2) in
      match reply a2 with
      | NetworkError _ => (Returned false, st3)
      | Arrived r2 =>
          if ok r2
          then match text r2 with
               | inr t => (Returned true, set_crumb t st3)
               | inl _ => (Returned false, st3)
               end
          else (Returned false, st3)
      end
  end.

(** ** Sample data *)

Definition num (z : Z) : JS.value := JS.Number (PrimFloat.of_uint63 (Uint63.of_Z z)).

(** A process that has just started and holds no token. *)
Definition empty_state : State :=
  {| crumb := None; cookieStr := None; cache := ∅; results := ∅; clock := 0; sent := [] |}.

(** A process that already holds the token [c1] with the cookie [A=1]. *)
Definition warm_state : State :=
  {| crumb := Some "c1"; cookieStr := Some "A=1"; cache := ∅; results := ∅;
     clock := 1000; sent := [] |}.

Definition bare (code : N) : Response :=
  {| status := code; getSetCookie := None; text := inl "no body"; json := inl "no body" |}.

Definition sample_meta : Meta :=
  {| regularMarketPrice := num 110; chartPreviousClose := num 100;
     meta_previousClose := num 105; regularMarketDayHigh := num 112;
     regularMarketDayLow := num 99 |}.

Definition sample_chart : Chart :=
  {| meta := sample_meta;
     quote0 := {| bar_open := Some [JS.Null; num 101]; bar_high := Some [num 112];
                  bar_low := Some [num 99]; bar_close := Some [num 10; JS.Null; num 12] |};
     chart_timestamp := Some [num 1; num 2; num 3] |}.

Definition chart_response (c : Chart) : Response :=
  {| status := 200; getSetCookie := None; text := inl "not text"; json := inr c |}.

Definition answer (ms : N) (r : Response) : Answer := {| elapsed := ms; reply := Arrived r |}.

(** An upstream in good health: the handshake yields the cookie [B=2] and
    the crumb [c2], and every chart request is served. *)
Definition healthy : Upstream := fun _ rq =>
  match rq with
  | GetConsent =>
      answer 5 {| status := 302; getSetCookie := Some ["B=2; Path=/; Secure"];
                  text := inl "no body"; json := inl "no body" |}
  | GetCrumb _ =>
      answer 5 {| status := 200; getSetCookie := None; text := inr "c2"; json := inl "not json" |}
  | GetChart _ _ _ _ _ => answer 20 (chart_response sample_chart)
  end.

(** The consent endpoint hands out a cookie but the crumb endpoint refuses. *)
Definition crumb_refused : Upstream := fun _ rq =>
  match rq with
  | GetCrumb _ => answer 5 (bare 429)
  | _ => healthy [] rq
  end.

(** A payload whose [chartPreviousClose] is present and is the number 0. *)
Definition zero_close_chart : Chart :=
  {| meta := {| regularMarketPrice := num 110; chartPreviousClose := num 0;
                meta_previousClose := num 105; regularMarketDayHigh := num 112;
                regularMarketDayLow := num 99 |};
     quote0 := quote0 sample_chart;
     chart_timestamp := chart_timestamp sample_chart |}.

(** A payload with neither close field, for an instrument quoted at 0. *)
Definition zero_price_chart : Chart :=
  {| meta := {| regularMarketPrice := num 0; chartPreviousClose := JS.Undefined;
                meta_previousClose := JS.Undefined; regularMarketDayHigh := JS.Undefined;
                regularMarketDayLow := JS.Undefined |};
     quote0 := {| bar_open := None; bar_high := None; bar_low := None; bar_close := None |};
     chart_timestamp := None |}.

(** A payload with neither close field, quoted at 110. *)
Definition price_only_chart : Chart :=
  {| meta := {| regularMarketPrice := num 110; chartPreviousClose := JS.Undefined;
                meta_previousClose := JS.Null; regularMarketDayHigh := JS.Undefined;
                regularMarketDayLow := JS.Undefined |};
     quote0 := {| bar_open := None; bar_high := None; bar_low := None; bar_close := None |};
     chart_timestamp := None |}.

(** A healthy upstream that serves the given payload. *)
Definition serving (c : Chart) : Upstream := fun _ rq =>
  match rq with
  | GetChart _ _ _ _ _ => answer 20 (chart_response c)
  | _ => healthy [] rq
  end.

(** The chart endpoint rejects the first request with 401 and serves the
    following ones; the handshake is in good health. *)
Definition expired_once : Upstream := fun l rq =>
  match rq with
  | GetChart _ _ _ _ _ =>
      if (chart_requests l =? 0)%nat then answer 20 (bare 401)
      else answer 20 (chart_response sample_chart)
  | _ => healthy l rq
  end.

(** The same, served by a runtime or a provider that hands out no cookie:
    the consent response carries no [Set-Cookie] value. *)
Definition cookieless : Upstream := fun l rq =>
  match rq with
  | GetConsent => answer 5 (bare 302)
  | _ => expired_once l rq
  end.

(** The chart endpoint rejects every request with 401; the handshake is in
    good health. *)
Definition always_unauthorized : Upstream := fun l rq =>
  match rq with
  | GetChart _ _ _ _ _ => answer 20 (bare 401)
  | _ => healthy l rq
  end.

(** The chart endpoint rejects every request with 401, no cookie is handed
    out and the crumb endpoint answers 500. *)
Definition locked_out : Upstream := fun _ rq =>
  match rq with
  | GetChart _ _ _ _ _ => answer 20 (bare 401)
  | GetConsent => answer 5 (bare 302)
  | GetCrumb _ => answer 5 (bare 500)
  end.

(** A payload whose closing prices stop short of its timestamps. *)
Definition short_close_chart : Chart :=
  {| meta := sample_meta;
     quote0 := {| bar_open := None; bar_high := None; bar_low := None;
                  bar_close := Some [num 10] |};
     chart_timestamp := Some [num 1; num 2; num 3] |}.

(** A state whose cache holds a history under the key of (AAPL, 1d), fresh
    for another 50 seconds. *)
Definition sample_history : list HistoryPoint :=
  [ {| time := num 1; hp_price := num 10 |}; {| time := num 3; hp_price := num 12 |} ].
Definition history_cached : State :=
  {| crumb := Some "c1"; cookieStr := Some "A=1";
     cache := {[ cacheKey "AAPL" "1d" :=
                 {| ce_value := CHistory sample_history; ce_expires := 51000 |} ]};
     results := ∅; clock := 1000; sent := [] |}.

(** A state whose cache holds a quote for AAPL, fresh for another 20 seconds. *)
Definition quote_cached : State :=
  {| crumb := Some "c1"; cookieStr := Some "A=1";
     cache := {[ "AAPL" := {| ce_value := CQuote (makeQuote sample_chart 900);
                              ce_expires := 21000 |} ]};
     results := ∅; clock := 1000; sent := [] |}.

(** A state whose cache holds a history under the key the specification
    names for (AAPL, 1d). *)
Definition spec_key_cached : State :=
  {| crumb := Some "c1"; cookieStr := Some "A=1";
     cache := {[ "history:AAPL:1d" :=
                 {| ce_value := CHistory sample_history; ce_expires := 51000 |} ]};
     results := ∅; clock := 1000; sent := [] |}.

(** The batch of the specification: [GOOD] is served, the request for [BAD]
    fails with the message [boom].  The task of [GOOD] is resumed three
    times: by the response, after [resp.json()], and after [fetchQuote]. *)
Definition served : Answer := answer 20 (chart_response sample_chart).
Definition boom : Answer := {| elapsed := 7; reply := NetworkError "boom" |}.
Definition good_bad_schedule : list (nat * Answer) :=
  [(0%nat, served); (1%nat, boom); (0%nat, served); (0%nat, served)].

(** ** The rest of the program *)

(** Lines 188-190: the handshake is tried once, and the server listens
    whatever came of it ([Ret tt] stands for the call of [app.listen]). *)
Definition startup : async unit :=
  let! _ := initCrumb in Ret tt.

(** A run may let time pass, but leaves the cache and the results alone. *)
Definition untouched (st st' : State) : Prop :=
  results st' = results st /\ cache st' = cache st /\ clock st <= clock st'.

(** The chart endpoint is down: every chart request is answered 503. *)
Definition chart_down : Upstream := fun l rq =>
  match rq with
  | GetChart _ _ _ _ _ => answer 20 (bare 503)
  | _ => healthy l rq
  end.

(** The network is down: no request gets a response. *)
Definition offline : Upstream := fun _ _ =>
  {| elapsed := 3; reply := NetworkError "fetch failed" |}.

(** [s.startsWith(p)] *)
Fixpoint starts_with (p s : string) : bool :=
  match p with
  | EmptyString => true
  | String a p' =>
      match s with
      | EmptyString => false
      | String b s' => Ascii.eqb a b && starts_with p' s'
      end
  end.

(** A payload without day high and low, whose bars carry them. *)
Definition bars_chart : Chart :=
  {| meta := {| regularMarketPrice := num 110; chartPreviousClose := num 100;
                meta_previousClose := JS.Undefined; regularMarketDayHigh := JS.Undefined;
                regularMarketDayLow := JS.Null |};
     quote0 := {| bar_open := Some [JS.Null; num 101; num 102];
                  bar_high := Some [num 111; JS.Null; num 113; num 112];
                  bar_low := Some [num 100; num 98; JS.Null];
                  bar_close := None |};
     chart_timestamp := None |}.

(** A payload without day high and low, whose bars are all [null]. *)
Definition null_bars_chart : Chart :=
  {| meta := meta bars_chart;
     quote0 := {| bar_open := Some [JS.Null; JS.Null]; bar_high := Some [JS.Null];
                  bar_low := Some []; bar_close := None |};
     chart_timestamp := None |}.

(** ** The results of a batch and the cache

    Every value recorded in [results] is the value the cache holds under
    the same symbol (in an entry that may have expired since), and nothing
    is recorded under [__proto__]. *)
Definition results_cached (st : State) : Prop :=
  results st !! "__proto__" = None
  /\ forall s v, results st !! s = Some (Data v) ->
                 exists e, cache st !! s = Some e /\ ce_value e = v.

(** What remains of a call of [fetchQuote] found in the pool: whatever it
    is resumed with, it leaves the results and the cache alone. *)
Definition calm {A : Type} (p : async A) : Prop :=
  match p with
  | Ret _ | Throw _ | Spin => True
  | Await _ k => forall r st, holds quiet anything whatever whatever (k r) st
  | Yield k => forall st, holds quiet anything whatever whatever k st
  | Read _ | Update _ _ => False
  end.

(** A task of the batch found in the pool: finished, or around a call of
    [fetchQuote]. *)
Definition task_form (symbol : string) (t : async unit) : Prop :=
  t = Ret tt \/ exists p : async Quote, calm p /\ t = batchAround symbol p.

(** * Properties *)

(** ** Running composed computations *)

Lemma exec_bind {A B : Type} (up : Upstream) (p : async A) (f : A -> async B) (st : State) :
  exec up (bind p f) st =
  match exec up p st with
  | (Returned a, st') => exec up (f a) st'
  | (Threw m, st') => (Threw m, st')
  | (Pending, st') => (Pending, st')
  end.
Proof.
  revert st. induction p as [a|m| |k IH|g k IH|rq k IH|k IH]; intros st; cbn; auto.
Qed.

Lemma exec_try_catch {A : Type} (up : Upstream) (p : async A) (h : string -> async A)
  (st : State) :
  exec up (try_catch p h) st =
  match exec up p st with
  | (Returned a, st') => (Returned a, st')
  | (Threw m, st') => exec up (h m) st'
  | (Pending, st') => (Pending, st')
  end.
Proof.
  revert st. induction p as [a|m| |k IH|g k IH|rq k IH|k IH]; intros st; cbn; auto.
Qed.

Lemma exec_await {A : Type} (up : Upstream) (p : async A) (st : State) :
  exec up (await p) st = exec up p st.
Proof.
  unfold await. rewrite exec_bind. destruct (exec up p st) as [[a|m|] st']; reflexivity.
Qed.

(** ** The handshake *)

Lemma exec_initCrumb (up : Upstream) (st : State) :
  exec up initCrumb st = initCrumb_run up st.
Proof.
  unfold initCrumb, initCrumb_run, cookie_header. cbn.
  destruct (reply (up (sent st) GetConsent)) as [m|r1]; cbn; [reflexivity|].
  match goal with |- context [reply ?a] => destruct (reply a) as [m|r2] end; cbn; [reflexivity|].
  destruct (ok r2); cbn; [|reflexivity].
  destruct (text r2); reflexivity.
Qed.

(** The handshake never throws: it answers [true] or [false]. *)
Lemma initCrumb_run_returns (up : Upstream) (st : State) :
  exists b, fst (initCrumb_run up st) = Returned b.
Proof.
  unfold initCrumb_run.
  destruct (reply (up (sent st) GetConsent)) as [m|r1]; cbn; [eauto|].
  match goal with |- context [reply ?a] => destruct (reply a) as [m|r2] end; cbn; [eauto|].
  destruct (ok r2); [|eauto]. destruct (text r2); eauto.
Qed.

(** C2 (as amended): [initCrumb] always returns a boolean and leaves the
    cache and the results alone.  When it returns [false] the crumb is the one
    held before the call, and the cookie is the one held before the call only
    if the consent request itself failed: once a consent response has arrived,
    [cookieStr] holds the cookie header built from it, whatever the crumb
    request does next.  When it returns [true] the store holds the new pair:
    the cookie header of the consent response and the text of the crumb
    response. *)
Theorem initCrumb_token_store (up : Upstream) (st : State) :
  let st' := snd (exec up initCrumb st) in
  (fst (exec up initCrumb st) = Returned true \/ fst (exec up initCrumb st) = Returned false)
  /\ (fst (exec up initCrumb st) = Returned false ->
      crumb st' = crumb st /\
      match reply (up (sent st) GetConsent) with
      | NetworkError _ => cookieStr st' = cookieStr st
      | Arrived r1 => cookieStr st' = Some (cookie_header r1)
      end)
  /\ (fst (exec up initCrumb st) = Returned true ->
      exists r1 r2 t,
        reply (up (sent st) GetConsent) = Arrived r1 /\
        reply (up (sent st ++ [GetConsent]) (GetCrumb (Some (cookie_header r1)))) = Arrived r2 /\
        ok r2 = true /\ text r2 = inr t /\
        cookieStr st' = Some (cookie_header r1) /\ crumb st' = Some t)
  /\ cache st' = cache st /\ results st' = results st.
Proof.
  cbv zeta. rewrite exec_initCrumb. unfold initCrumb_run.
  destruct (reply (up (sent st) GetConsent)) as [m|r1] eqn:E1; cbn.
  { repeat split; auto; discriminate. }
  destruct (reply (up (sent st ++ [GetConsent]) (GetCrumb (Some (cookie_header r1)))))
    as [m|r2] eqn:E2; cbn.
  { repeat split; auto; discriminate. }
  destruct (ok r2) eqn:Eok; cbn; [|repeat split; auto; discriminate].
  destruct (text r2) as [m|t] eqn:Et; cbn; [repeat split; auto; discriminate|].
  repeat split; auto; try discriminate.
  intros _. exists r1, r2, t. repeat split; auto.
Qed.

(** C2 (as stated) fails: the consent request succeeds, the crumb request
    is refused with 429, [initCrumb] returns [false], and the cookie of the
    store has been replaced all the same while the crumb has not. *)
Lemma initCrumb_not_atomic :
  fst (exec crumb_refused initCrumb warm_state) = Returned false
  /\ cookieStr warm_state = Some "A=1"
  /\ cookieStr (snd (exec crumb_refused initCrumb warm_state)) = Some "B=2"
  /\ cookieStr (snd (exec crumb_refused initCrumb warm_state)) <> cookieStr warm_state
  /\ crumb (snd (exec crumb_refused initCrumb warm_state)) = crumb warm_state.
Proof. vm_compute. repeat split; congruence. Qed.

(** ** The quote fetcher, one level of recursion at a time *)

Lemma exec_ensureToken (up : Upstream) (st : State) :
  exec up ensureToken st =
  if negb (JS.truthy_str (crumb st)) || negb (JS.truthy_str (cookieStr st))
  then match exec up initCrumb st with
       | (Returned true, st1) => (Returned tt, st1)
       | (Returned false, st1) => (Threw "Cannot acquire Yahoo Finance crumb", st1)
       | (Threw m, st1) => (Threw m, st1)
       | (Pending, st1) => (Pending, st1)
       end
  else (Returned tt, st).
Proof.
  unfold ensureToken. cbn [bind get_state exec].
  destruct (negb (JS.truthy_str (crumb st)) || negb (JS.truthy_str (cookieStr st)));
    [|reflexivity].
  rewrite exec_bind, exec_await.
  destruct (exec up initCrumb st) as [[[|]|m|] st1]; reflexivity.
Qed.

Lemma exec_fetchQuote_S (up : Upstream) (budget : nat) (symbol : string) (st : State) :
  exec up (fetchQuote (S budget) symbol) st =
  match exec up ensureToken st with
  | (Returned _, st1) =>
      let rq := GetChart symbol "1d" "1d" (crumb st1) (cookieStr st1) in
      let st2 := tick (elapsed (up (sent st1) rq)) (send rq st1) in
      match reply (up (sent st1) rq) with
      | NetworkError m => (Threw m, st2)
      | Arrived resp =>
          if ((status resp =? 401) || (status resp =? 403))%N
          then exec up (fetchQuote budget symbol) (snd (exec up initCrumb st2))
          else if negb (ok resp)
          then (Threw ("Yahoo API error " +:+ pretty (status resp)), st2)
          else match json resp with
               | inl m => (Threw m, st2)
               | inr c => (Returned (makeQuote c (clock st2)), st2)
               end
      end
  | (Threw m, st1) => (Threw m, st1)
  | (Pending, st1) => (Pending, st1)
  end.
Proof.
  cbn [fetchQuote]. rewrite exec_bind.
  destruct (exec up ensureToken st) as [[[]|m|] st1]; try reflexivity.
  cbn [bind get_state exec fetch]. cbv zeta.
  destruct (reply (up (sent st1) (GetChart symbol "1d" "1d" (crumb st1) (cookieStr st1))))
    as [m|resp]; [reflexivity|].
  cbn [bind].
  destruct ((status resp =? 401) || (status resp =? 403))%N.
  - rewrite exec_bind, exec_await.
    pose proof (initCrumb_run_returns up
      (tick (elapsed (up (sent st1) (GetChart symbol "1d" "1d" (crumb st1) (cookieStr st1))))
         (send (GetChart symbol "1d" "1d" (crumb st1) (cookieStr st1)) st1))) as [b Hb].
    rewrite <- exec_initCrumb in Hb.
    destruct (exec up initCrumb _) as [o st3]. cbn in Hb. subst o. reflexivity.
  - destruct (negb (ok resp)); [reflexivity|].
    unfold read_body. destruct (json resp); reflexivity.
Qed.

(** Every record [fetchQuote] returns is built by lines 64-76 from the
    payload of a successful chart response, at the time of the return. *)
Lemma fetchQuote_returned (up : Upstream) (budget : nat) (symbol : string)
  (st st' : State) (q : Quote) :
  exec up (fetchQuote budget symbol) st = (Returned q, st') ->
  exists (c : Chart) (sent_before : list Request) (rq : Request) (r : Response),
    q = makeQuote c (clock st') /\
    is_chart rq = true /\ reply (up sent_before rq) = Arrived r /\
    ok r = true /\ json r = inr c.
Proof.
  revert st. induction budget as [|budget IH]; intros st H.
  - discriminate H.
  - rewrite exec_fetchQuote_S in H.
    destruct (exec up ensureToken st) as [[[]|m|] st1]; try discriminate H.
    cbv zeta in H.
    destruct (reply (up (sent st1) (GetChart symbol "1d" "1d" (crumb st1) (cookieStr st1))))
      as [m|resp] eqn:Er; [discriminate H|].
    destruct ((status resp =? 401) || (status resp =? 403))%N; [eapply IH; eassumption|].
    destruct (ok resp) eqn:Eok; cbn in H; [|discriminate H].
    destruct (json resp) as [m|c] eqn:Ej; [discriminate H|].
    injection H as Hq Hst. subst q st'.
    exists c, (sent st1), (GetChart symbol "1d" "1d" (crumb st1) (cookieStr st1)), resp.
    auto.
Qed.

(** The budget only cuts runs short: a run that settles within a budget
    settles the same way within any larger one. *)
Lemma fetchQuote_budget_mono (up : Upstream) (budget : nat) (symbol : string)
  (st st' : State) (r : outcome Quote) :
  exec up (fetchQuote budget symbol) st = (r, st') -> r <> Pending ->
  forall more : nat, exec up (fetchQuote (budget + more) symbol) st = (r, st').
Proof.
  revert st. induction budget as [|budget IH]; intros st H Hr more.
  - cbn in H. injection H as <- _. congruence.
  - change (S budget + more)%nat with (S (budget + more)).
    rewrite exec_fetchQuote_S in H |- *.
    destruct (exec up ensureToken st) as [[[]|m|] st1]; try exact H.
    cbv zeta in H |- *.
    destruct (reply (up (sent st1) (GetChart symbol "1d" "1d" (crumb st1) (cookieStr st1))))
      as [m|resp]; [exact H|].
    destruct ((status resp =? 401) || (status resp =? 403))%N; [|exact H].
    apply IH; assumption.
Qed.

(** C1: in every record returned by [fetchQuote], [isUp] is
    [price >= previousClose] and [changePercent] is
    [(price - previousClose) / previousClose * 100], computed on the [price]
    and [previousClose] of that same record. *)
Theorem fetchQuote_record_consistent (up : Upstream) (budget : nat) (symbol : string)
  (st st' : State) (q : Quote) :
  exec up (fetchQuote budget symbol) st = (Returned q, st') ->
  isUp q = JS.ge (price q) (previousClose q)
  /\ changePercent q
     = PrimFloat.mul (JS.div (JS.sub (price q) (previousClose q)) (previousClose q)) hundred.
Proof.
  intros H. apply fetchQuote_returned in H as (c & _ & _ & _ & -> & _).
  split; reflexivity.
Qed.

Lemma fetchQuote_record_consistent_witness :
  let q := makeQuote sample_chart 1020 in
  isUp q = JS.ge (price q) (previousClose q)
  /\ changePercent q
     = PrimFloat.mul (JS.div (JS.sub (price q) (previousClose q)) (previousClose q)) hundred.
Proof.
  eapply (fetchQuote_record_consistent healthy 1 "AAPL" warm_state).
  vm_compute. reflexivity.
Defined.

Example sample_quote_values :
  fst (exec healthy (fetchQuote 1 "AAPL") warm_state) = Returned (makeQuote sample_chart 1020)
  /\ isUp (makeQuote sample_chart 1020) = true
  /\ changePercent (makeQuote sample_chart 1020) = 10%float
  /\ previousClose (makeQuote sample_chart 1020) = num 100.
Proof. vm_compute. repeat split. Qed.

(** ** Arithmetic of the fallback *)

Lemma finite_nonzero_inv (x : float) :
  JS.finite_nonzero x = true -> exists s m e, Prim2SF x = S754_finite s m e.
Proof.
  unfold JS.finite_nonzero, PrimFloat.is_nan, PrimFloat.is_infinity, PrimFloat.is_zero.
  rewrite !FloatAxioms.eqb_spec, abs_spec.
  destruct (Prim2SF x) as [s|s| |s m e]; cbn; try discriminate; eauto.
  - destruct s; discriminate.
Qed.

Lemma sub_self_finite (x : float) (s : bool) (m : positive) (e : Z) :
  Prim2SF x = S754_finite s m e -> PrimFloat.sub x x = PrimFloat.zero.
Proof.
  intros H. rewrite <- (SF2Prim_Prim2SF (PrimFloat.sub x x)).
  rewrite sub_spec, H. unfold SF64sub, SFsub.
  rewrite Z.min_id. unfold shl_align. rewrite Z.sub_diag. cbn [fst].
  reflexivity.
Qed.

Lemma zero_ratio_percent (x : float) (s : bool) (m : positive) (e : Z) :
  Prim2SF x = S754_finite s m e ->
  PrimFloat.eqb (PrimFloat.mul (PrimFloat.div PrimFloat.zero x) hundred) PrimFloat.zero = true.
Proof.
  intros H. rewrite FloatAxioms.eqb_spec, mul_spec, div_spec, H.
  destruct s; vm_compute; reflexivity.
Qed.

Lemma prevClose_first_truthy (m : Meta) :
  (JS.truthy (chartPreviousClose m) = true -> prevClose m = chartPreviousClose m)
  /\ (JS.truthy (chartPreviousClose m) = false -> JS.truthy (meta_previousClose m) = true ->
      prevClose m = meta_previousClose m)
  /\ (JS.truthy (chartPreviousClose m) = false -> JS.truthy (meta_previousClose m) = false ->
      prevClose m = regularMarketPrice m).
Proof.
  unfold prevClose, JS.or.
  destruct (JS.truthy (chartPreviousClose m)) eqn:E1.
  - rewrite E1. repeat split; auto; discriminate.
  - destruct (JS.truthy (meta_previousClose m)) eqn:E2; repeat split; auto; discriminate.
Qed.

(** C3 (as amended): the [previousClose] of a returned record is the first
    truthy value (a number other than 0 and [NaN]) among the payload's
    [chartPreviousClose], [previousClose] and, failing both, its
    [regularMarketPrice], in that order.  When neither close field is truthy
    and the price is a finite number other than 0, [change] is 0 and
    [changePercent] equals 0 (it is a zero with the sign of the price). *)
Theorem fetchQuote_previous_close (up : Upstream) (budget : nat) (symbol : string)
  (st st' : State) (q : Quote) :
  exec up (fetchQuote budget symbol) st = (Returned q, st') ->
  exists (c : Chart) (sent_before : list Request) (rq : Request) (r : Response),
    is_chart rq = true /\ reply (up sent_before rq) = Arrived r /\ json r = inr c /\
    price q = regularMarketPrice (meta c) /\
    (JS.truthy (chartPreviousClose (meta c)) = true ->
     previousClose q = chartPreviousClose (meta c)) /\
    (JS.truthy (chartPreviousClose (meta c)) = false ->
     JS.truthy (meta_previousClose (meta c)) = true ->
     previousClose q = meta_previousClose (meta c)) /\
    (JS.truthy (chartPreviousClose (meta c)) = false ->
     JS.truthy (meta_previousClose (meta c)) = false ->
     previousClose q = regularMarketPrice (meta c) /\
     forall x : float,
       regularMarketPrice (meta c) = JS.Number x -> JS.finite_nonzero x = true ->
       change q = PrimFloat.zero /\
       PrimFloat.eqb (changePercent q) PrimFloat.zero = true).
Proof.
  intros H. apply fetchQuote_returned in H as (c & l & rq & r & -> & Hrq & Hr & _ & Hj).
  exists c, l, rq, r. destruct (prevClose_first_truthy (meta c)) as (H1 & H2 & H3).
  split; [assumption|]. split; [assumption|]. split; [assumption|].
  split; [reflexivity|]. split; [exact H1|]. split; [exact H2|].
  intros Hc Hp. split; [exact (H3 Hc Hp)|].
  intros x Hx Hfin. apply finite_nonzero_inv in Hfin as (s & m & e & Hsf).
  cbn. rewrite (H3 Hc Hp), Hx. cbn. split.
  - eapply sub_self_finite; eassumption.
  - rewrite (sub_self_finite _ _ _ _ Hsf). eapply zero_ratio_percent; eassumption.
Qed.

Lemma fetchQuote_previous_close_witness :
  exists (c : Chart) (sent_before : list Request) (rq : Request) (r : Response),
    is_chart rq = true /\ reply (serving price_only_chart sent_before rq) = Arrived r /\
    json r = inr c /\
    price (makeQuote price_only_chart 1020) = regularMarketPrice (meta c) /\
    (JS.truthy (chartPreviousClose (meta c)) = true ->
     previousClose (makeQuote price_only_chart 1020) = chartPreviousClose (meta c)) /\
    (JS.truthy (chartPreviousClose (meta c)) = false ->
     JS.truthy (meta_previousClose (meta c)) = true ->
     previousClose (makeQuote price_only_chart 1020) = meta_previousClose (meta c)) /\
    (JS.truthy (chartPreviousClose (meta c)) = false ->
     JS.truthy (meta_previousClose (meta c)) = false ->
     previousClose (makeQuote price_only_chart 1020) = regularMarketPrice (meta c) /\
     forall x : float,
       regularMarketPrice (meta c) = JS.Number x -> JS.finite_nonzero x = true ->
       change (makeQuote price_only_chart 1020) = PrimFloat.zero /\
       PrimFloat.eqb (changePercent (makeQuote price_only_chart 1020)) PrimFloat.zero = true).
Proof.
  eapply (fetchQuote_previous_close (serving price_only_chart) 1 "AAPL" warm_state).
  vm_compute. reflexivity.
Defined.

(** C3 (as stated) fails twice.  A [chartPreviousClose] that is present,
    not null, and equal to 0 is skipped in favour of [previousClose]; and
    with neither close field, a price of 0 gives a [changePercent] that is
    [NaN], not 0. *)
Lemma fetchQuote_previous_close_not_first_non_null :
  (fst (exec (serving zero_close_chart) (fetchQuote 1 "AAPL") warm_state)
   = Returned (makeQuote zero_close_chart 1020)
   /\ chartPreviousClose (meta zero_close_chart) = JS.Number 0%float
   /\ JS.not_null (chartPreviousClose (meta zero_close_chart)) = true
   /\ previousClose (makeQuote zero_close_chart 1020) = JS.Number 105%float)
  /\ (fst (exec (serving zero_price_chart) (fetchQuote 1 "AAPL") warm_state)
      = Returned (makeQuote zero_price_chart 1020)
      /\ chartPreviousClose (meta zero_price_chart) = JS.Undefined
      /\ meta_previousClose (meta zero_price_chart) = JS.Undefined
      /\ PrimFloat.is_nan (changePercent (makeQuote zero_price_chart 1020)) = true
      /\ PrimFloat.eqb (changePercent (makeQuote zero_price_chart 1020)) PrimFloat.zero = false).
Proof. vm_compute. repeat split. Qed.

(** ** Token refresh *)

Lemma ok_not_unauthorized (r : Response) :
  ok r = true -> ((status r =? 401) || (status r =? 403))%N = false.
Proof.
  unfold ok. intros H. apply andb_prop in H as [_ H]. apply N.leb_le in H.
  apply orb_false_intro; apply N.eqb_neq; lia.
Qed.

Lemma unauthorized_status (r : Response) :
  (status r = 401 \/ status r = 403)%N -> ((status r =? 401) || (status r =? 403))%N = true.
Proof. intros [-> | ->]; reflexivity. Qed.

Lemma chart_requests_app (l1 l2 : list Request) :
  chart_requests (l1 ++ l2) = (chart_requests l1 + chart_requests l2)%nat.
Proof. unfold chart_requests. rewrite List.filter_app, length_app. reflexivity. Qed.

Lemma acquisitions_app (l1 l2 : list Request) :
  acquisitions (l1 ++ l2) = (acquisitions l1 + acquisitions l2)%nat.
Proof. unfold acquisitions. rewrite List.filter_app, length_app. reflexivity. Qed.

(** One call of [initCrumb] sends one consent request, followed by at most
    one crumb request. *)
Lemma initCrumb_sent (up : Upstream) (st : State) :
  exists rest,
    sent (snd (exec up initCrumb st)) = sent st ++ GetConsent :: rest
    /\ (rest = [] \/ exists ck, rest = [GetCrumb ck]).
Proof.
  rewrite exec_initCrumb. unfold initCrumb_run.
  destruct (reply (up (sent st) GetConsent)) as [m|r1]; cbn; [eauto|].
  match goal with |- context [reply ?a] => destruct (reply a) as [m|r2] end; cbn.
  2: destruct (ok r2); [destruct (text r2)|]; cbn.
  all: eexists; rewrite <- app_assoc; cbn; split; [reflexivity|]; eauto.
Qed.

Lemma initCrumb_counts (up : Upstream) (st : State) :
  chart_requests (sent (snd (exec up initCrumb st))) = chart_requests (sent st)
  /\ acquisitions (sent (snd (exec up initCrumb st))) = S (acquisitions (sent st)).
Proof.
  destruct (initCrumb_sent up st) as (rest & -> & Hrest).
  rewrite chart_requests_app, acquisitions_app.
  destruct Hrest as [-> | [ck ->]]; cbn; split; lia.
Qed.

Lemma exec_ensureToken_present (up : Upstream) (st : State) :
  token_present st -> exec up ensureToken st = (Returned tt, st).
Proof.
  intros [Hc Hk]. rewrite exec_ensureToken, Hc, Hk. reflexivity.
Qed.

Lemma ensureToken_counts (up : Upstream) (st : State) :
  chart_requests (sent (snd (exec up ensureToken st))) = chart_requests (sent st)
  /\ (acquisitions (sent st) <= acquisitions (sent (snd (exec up ensureToken st))))%nat.
Proof.
  rewrite exec_ensureToken.
  destruct (negb (JS.truthy_str (crumb st)) || negb (JS.truthy_str (cookieStr st)));
    [|cbn [snd]; split; [reflexivity|lia]].
  destruct (initCrumb_counts up st) as [Hc Ha].
  destruct (exec up initCrumb st) as [[[|]|m|] st1]; cbn [snd] in *; split; lia.
Qed.

(** C7 (as amended): the call gets past the token guard of line 41, the
    first chart request is answered 401 or 403, the store holds a non-empty
    crumb and cookie once the forced re-acquisition is over, and the second
    chart request is served.  Then [fetchQuote] runs the handshake once after
    the first chart request, sends the chart request twice, and returns the
    record built from the second response. *)
Theorem fetchQuote_refresh_once (up : Upstream) (budget : nat) (symbol : string)
  (st : State) (r1 r2 : Response) (c : Chart) :
  let st0 := snd (exec up ensureToken st) in
  let rq1 := GetChart symbol "1d" "1d" (crumb st0) (cookieStr st0) in
  let st1 := tick (elapsed (up (sent st0) rq1)) (send rq1 st0) in
  let st2 := snd (exec up initCrumb st1) in
  let rq2 := GetChart symbol "1d" "1d" (crumb st2) (cookieStr st2) in
  let st3 := tick (elapsed (up (sent st2) rq2)) (send rq2 st2) in
  fst (exec up ensureToken st) = Returned tt ->
  reply (up (sent st0) rq1) = Arrived r1 -> (status r1 = 401 \/ status r1 = 403)%N ->
  token_present st2 ->
  reply (up (sent st2) rq2) = Arrived r2 -> ok r2 = true -> json r2 = inr c ->
  exec up (fetchQuote (S (S budget)) symbol) st = (Returned (makeQuote c (clock st3)), st3)
  /\ chart_requests (sent st3) = (chart_requests (sent st) + 2)%nat
  /\ acquisitions (sent st3) = (acquisitions (sent st0) + 1)%nat.
Proof.
  intros st0 rq1 st1 st2 rq2 st3 Hguard Hr1 H401 Hmid Hr2 Hok Hjson.
  assert (E : exec up ensureToken st = (Returned tt, st0)).
  { subst st0. destruct (exec up ensureToken st) as [o s0]. cbn in *. congruence. }
  split.
  - rewrite exec_fetchQuote_S, E. cbv zeta.
    fold rq1. rewrite Hr1, (unauthorized_status _ H401). fold st1 st2.
    rewrite exec_fetchQuote_S, (exec_ensureToken_present _ _ Hmid). cbv zeta.
    fold rq2. rewrite Hr2, (ok_not_unauthorized _ Hok), Hok, Hjson. reflexivity.
  - subst st3. cbn [sent tick send]. rewrite chart_requests_app, acquisitions_app.
    subst st2. destruct (initCrumb_counts up st1) as [-> ->].
    subst st1. cbn [sent tick send]. rewrite chart_requests_app, acquisitions_app.
    destruct (ensureToken_counts up st) as [Hc _]. fold st0 in Hc. rewrite Hc.
    subst rq1 rq2. cbn. lia.
Qed.

(** A cold start: the store is empty, the guard of line 41 runs the
    handshake, the first chart request is rejected, the handshake is run
    once more, and the retry is served. *)
Lemma fetchQuote_refresh_once_witness :
  let run := exec expired_once (fetchQuote 2 "AAPL") empty_state in
  run = (Returned (makeQuote sample_chart (clock (snd run))), snd run)
  /\ chart_requests (sent (snd run)) = 2%nat
  /\ acquisitions (sent (snd run)) = 2%nat
  /\ acquisitions (sent (snd (exec expired_once ensureToken empty_state))) = 1%nat.
Proof.
  pose proof (fetchQuote_refresh_once expired_once 0 "AAPL" empty_state
                (bare 401) (chart_response sample_chart) sample_chart) as H.
  cbv zeta in H.
  specialize (H ltac:(vm_compute; reflexivity) ltac:(vm_compute; reflexivity)
                ltac:(left; reflexivity)
                ltac:(split; vm_compute; reflexivity) ltac:(vm_compute; reflexivity)
                ltac:(reflexivity) ltac:(reflexivity)).
  vm_compute in H. vm_compute. destruct H as (H1 & H2 & H3). repeat split; assumption.
Defined.

(** C7 (as stated) fails: the store holds a token, the first chart request
    is answered 401 and the second is served, but the consent response
    carries no cookie.  The forced re-acquisition leaves an empty
    [cookieStr], so the retry runs the handshake a second time before it
    sends the chart request again: two acquisitions, not one. *)
Lemma fetchQuote_refresh_twice :
  let run := exec cookieless (fetchQuote 2 "AAPL") warm_state in
  token_present warm_state
  /\ reply (cookieless [] (GetChart "AAPL" "1d" "1d" (Some "c1") (Some "A=1")))
     = Arrived (bare 401)
  /\ fst run = Returned (makeQuote sample_chart 1060)
  /\ sent (snd run)
     = [GetChart "AAPL" "1d" "1d" (Some "c1") (Some "A=1");
        GetConsent; GetCrumb (Some EmptyString);
        GetConsent; GetCrumb (Some EmptyString);
        GetChart "AAPL" "1d" "1d" (Some "c2") (Some EmptyString)]
  /\ chart_requests (sent (snd run)) = 2%nat
  /\ acquisitions (sent (snd run)) = 2%nat.
Proof. vm_compute. repeat split. Qed.

(** ** Persistent authorization failure *)

(** A handshake that never hands out an empty cookie header or an empty
    crumb keeps a token in the store. *)
Lemma initCrumb_keeps_token (up : Upstream) (st : State) :
  (forall l r, reply (up l GetConsent) = Arrived r -> cookie_header r <> EmptyString) ->
  (forall l ck r t, reply (up l (GetCrumb ck)) = Arrived r -> ok r = true ->
                    text r = inr t -> t <> EmptyString) ->
  token_present st -> token_present (snd (exec up initCrumb st)).
Proof.
  intros Hcookie Hcrumb [Hc Hk]. rewrite exec_initCrumb. unfold initCrumb_run.
  destruct (reply (up (sent st) GetConsent)) as [m|r1] eqn:E1; cbn; [split; assumption|].
  assert (Hk' : JS.truthy_str (Some (cookie_header r1)) = true).
  { specialize (Hcookie _ _ E1). cbn. destruct (cookie_header r1); [congruence|reflexivity]. }
  match goal with |- context [reply ?a] => destruct (reply a) as [m|r2] eqn:E2 end; cbn;
    [split; assumption|].
  destruct (ok r2) eqn:Eok; cbn; [|split; assumption].
  destruct (text r2) as [m|t] eqn:Et; cbn; [split; assumption|].
  split; [|assumption]. specialize (Hcrumb _ _ _ _ E2 Eok Et). cbn.
  destruct t; [congruence|reflexivity].
Qed.

(** A guard that lets the call through leaves a token in the store. *)
Lemma ensureToken_establishes_token (up : Upstream) (st : State) :
  (forall l r, reply (up l GetConsent) = Arrived r -> cookie_header r <> EmptyString) ->
  (forall l ck r t, reply (up l (GetCrumb ck)) = Arrived r -> ok r = true ->
                    text r = inr t -> t <> EmptyString) ->
  fst (exec up ensureToken st) = Returned tt ->
  token_present (snd (exec up ensureToken st)).
Proof.
  intros Hcookie Hcrumb. rewrite exec_ensureToken.
  destruct (JS.truthy_str (crumb st)) eqn:Ec, (JS.truthy_str (cookieStr st)) eqn:Ek;
    cbn [negb orb fst snd]; try (intros _; split; assumption).
  all: rewrite exec_initCrumb; unfold initCrumb_run;
    destruct (reply (up (sent st) GetConsent)) as [m|r1] eqn:E1; cbn; try discriminate;
    match goal with |- context [reply ?a] => destruct (reply a) as [m|r2] eqn:E2 end; cbn;
    try discriminate;
    destruct (ok r2) eqn:Eok; cbn; try discriminate;
    destruct (text r2) as [m|t] eqn:Et; cbn; try discriminate;
    intros _; split; cbn;
    [ specialize (Hcrumb _ _ _ _ E2 Eok Et); destruct t; [congruence|reflexivity]
    | specialize (Hcookie _ _ E1); destruct (cookie_header r1); [congruence|reflexivity] ].
Qed.

(** With a token in the store, each level of the recursion sends one chart
    request, runs the handshake once, and recurses. *)
Lemma fetchQuote_retries_with_token (up : Upstream) (symbol : string) (st : State) :
  (forall l rq, is_chart rq = true ->
                exists r, reply (up l rq) = Arrived r /\ (status r = 401 \/ status r = 403)%N) ->
  (forall l r, reply (up l GetConsent) = Arrived r -> cookie_header r <> EmptyString) ->
  (forall l ck r t, reply (up l (GetCrumb ck)) = Arrived r -> ok r = true ->
                    text r = inr t -> t <> EmptyString) ->
  token_present st ->
  forall budget : nat,
    fst (exec up (fetchQuote budget symbol) st) = Pending
    /\ chart_requests (sent (snd (exec up (fetchQuote budget symbol) st)))
       = (chart_requests (sent st) + budget)%nat
    /\ acquisitions (sent (snd (exec up (fetchQuote budget symbol) st)))
       = (acquisitions (sent st) + budget)%nat.
Proof.
  intros Hchart Hcookie Hcrumb Hpre budget. revert st Hpre.
  induction budget as [|budget IH]; intros st Hpre.
  - cbn. repeat split; lia.
  - rewrite exec_fetchQuote_S, (exec_ensureToken_present _ _ Hpre). cbv zeta.
    set (rq := GetChart symbol "1d" "1d" (crumb st) (cookieStr st)).
    destruct (Hchart (sent st) rq eq_refl) as (r & -> & Hstatus).
    rewrite (unauthorized_status _ Hstatus).
    set (st1 := tick (elapsed (up (sent st) rq)) (send rq st)).
    assert (Hpre1 : token_present st1) by exact Hpre.
    pose proof (initCrumb_keeps_token up st1 Hcookie Hcrumb Hpre1) as Hpre2.
    destruct (IH _ Hpre2) as (-> & -> & ->).
    destruct (initCrumb_counts up st1) as [-> ->].
    subst st1. cbn [sent tick send]. rewrite chart_requests_app, acquisitions_app.
    cbn. repeat split; lia.
Qed.

(** C8 (as amended): the call gets past the token guard of line 41, the
    chart endpoint answers 401 or 403 to every request, and the handshake
    never hands out an empty cookie header or an empty crumb.  Then no depth
    of recursion lets [fetchQuote] settle: within any budget it neither
    returns nor throws, and every level of the recursion has sent its chart
    request and run the handshake again. *)
Theorem fetchQuote_retries_forever (up : Upstream) (symbol : string) (st : State) :
  (forall l rq, is_chart rq = true ->
                exists r, reply (up l rq) = Arrived r /\ (status r = 401 \/ status r = 403)%N) ->
  (forall l r, reply (up l GetConsent) = Arrived r -> cookie_header r <> EmptyString) ->
  (forall l ck r t, reply (up l (GetCrumb ck)) = Arrived r -> ok r = true ->
                    text r = inr t -> t <> EmptyString) ->
  fst (exec up ensureToken st) = Returned tt ->
  forall budget : nat,
    fst (exec up (fetchQuote budget symbol) st) = Pending
    /\ chart_requests (sent (snd (exec up (fetchQuote budget symbol) st)))
       = (chart_requests (sent st) + budget)%nat
    /\ (acquisitions (sent st) + budget
        <= acquisitions (sent (snd (exec up (fetchQuote budget symbol) st))))%nat.
Proof.
  intros Hchart Hcookie Hcrumb Hguard [|budget].
  - cbn. repeat split; lia.
  - pose proof (ensureToken_establishes_token up st Hcookie Hcrumb Hguard) as Hpre.
    destruct (ensureToken_counts up st) as [Hc Ha].
    rewrite exec_fetchQuote_S.
    destruct (exec up ensureToken st) as [o st0]. cbn [fst snd] in *. subst o. cbv zeta.
    set (rq := GetChart symbol "1d" "1d" (crumb st0) (cookieStr st0)).
    destruct (Hchart (sent st0) rq eq_refl) as (r & -> & Hstatus).
    rewrite (unauthorized_status _ Hstatus).
    set (st1 := tick (elapsed (up (sent st0) rq)) (send rq st0)).
    assert (Hpre1 : token_present st1) by exact Hpre.
    pose proof (initCrumb_keeps_token up st1 Hcookie Hcrumb Hpre1) as Hpre2.
    destruct (fetchQuote_retries_with_token up symbol _ Hchart Hcookie Hcrumb Hpre2 budget)
      as (-> & -> & ->).
    destruct (initCrumb_counts up st1) as [-> ->].
    subst st1. cbn [sent tick send]. rewrite chart_requests_app, acquisitions_app.
    cbn. repeat split; lia.
Qed.

(** A cold start against a chart endpoint that always answers 401. *)
Lemma fetchQuote_retries_forever_witness :
  fst (exec always_unauthorized (fetchQuote 7 "AAPL") empty_state) = Pending
  /\ chart_requests (sent (snd (exec always_unauthorized (fetchQuote 7 "AAPL") empty_state)))
     = (chart_requests (sent empty_state) + 7)%nat
  /\ (acquisitions (sent empty_state) + 7
      <= acquisitions (sent (snd (exec always_unauthorized (fetchQuote 7 "AAPL")
                                    empty_state))))%nat.
Proof.
  refine (fetchQuote_retries_forever always_unauthorized "AAPL" empty_state _ _ _ _ 7).
  - intros l rq Hrq. destruct rq; try discriminate Hrq.
    exists (bare 401). split; [reflexivity|left; reflexivity].
  - intros l r H. injection H as <-. vm_compute. discriminate.
  - intros l ck r t H _ Ht. injection H as <-. cbn in Ht. injection Ht as <-. discriminate.
  - vm_compute. reflexivity.
Defined.

(** C8 (as stated) fails: the chart endpoint answers 401 to every request,
    but the handshake yields no cookie and no crumb.  Starting with a token,
    the retry finds an empty [cookieStr], runs the handshake again, and gives
    up: [fetchQuote] does return, with the error of line 43, whatever the
    depth allowed.  Starting without one, it gives up at once. *)
Lemma fetchQuote_gives_up :
  (forall l rq, is_chart rq = true -> reply (locked_out l rq) = Arrived (bare 401))
  /\ token_present warm_state
  /\ (forall budget : nat,
        fst (exec locked_out (fetchQuote (S (S budget)) "AAPL") warm_state)
        = Threw "Cannot acquire Yahoo Finance crumb")
  /\ chart_requests (sent (snd (exec locked_out (fetchQuote 2 "AAPL") warm_state))) = 1%nat
  /\ (forall budget : nat,
        fst (exec locked_out (fetchQuote (S budget) "AAPL") empty_state)
        = Threw "Cannot acquire Yahoo Finance crumb").
Proof.
  split; [intros l rq Hrq; destruct rq; try discriminate Hrq; reflexivity|].
  split; [split; reflexivity|].
  split; [|split; [vm_compute; reflexivity|]].
  - intros budget. rewrite !exec_fetchQuote_S. vm_compute. reflexivity.
  - intros budget. rewrite exec_fetchQuote_S. vm_compute. reflexivity.
Qed.

(** ** History *)

Example zipHistory_spec_example :
  zipHistory [num 1; num 2; num 3] [num 10; JS.Null; num 12]
  = [ {| time := num 1; hp_price := num 10 |}; {| time := num 3; hp_price := num 12 |} ].
Proof. reflexivity. Qed.

(** No point of a history has a [null] price, and the points come in the
    order of the timestamps. *)
Lemma zipHistory_no_null (timestamps prices : list JS.value) (h : HistoryPoint) :
  h ∈ zipHistory timestamps prices -> hp_price h <> JS.Null.
Proof.
  unfold zipHistory. rewrite list_elem_of_filter. intros [H _] E. rewrite E in H. discriminate H.
Qed.

(** C4, the failing input: with timestamps [1, 2, 3] and the single closing
    price [10], lines 109-112 keep the second and third points, whose price
    is [undefined]: the filter only removes [null].  The history returned
    (and cached) for such a response has three points. *)
Theorem fetchHistory_keeps_missing_prices :
  zipHistory [num 1; num 2; num 3] [num 10]
  = [ {| time := num 1; hp_price := num 10 |};
      {| time := num 2; hp_price := JS.Undefined |};
      {| time := num 3; hp_price := JS.Undefined |} ]
  /\ fst (exec (serving short_close_chart) (fetchHistory "AAPL" "1d") warm_state)
     = Returned (CHistory [ {| time := num 1; hp_price := num 10 |};
                            {| time := num 2; hp_price := JS.Undefined |};
                            {| time := num 3; hp_price := JS.Undefined |} ]).
Proof. split; vm_compute; reflexivity. Qed.

(** When every timestamp has a closing price next to it, the history is the
    pointwise pairing of the two arrays, without the points priced [null]. *)
Lemma zipHistory_aligned (timestamps prices : list JS.value) :
  (length timestamps <= length prices)%nat ->
  zipHistory timestamps prices
  = filter (fun h => JS.not_null (hp_price h) = true)
      (zip_with (fun t p => {| time := t; hp_price := p |}) timestamps prices).
Proof.
  intros Hlen. unfold zipHistory. f_equal. revert prices Hlen.
  induction timestamps as [|t ts IH]; intros prices Hlen; [reflexivity|].
  destruct prices as [|p ps]; [cbn in Hlen; lia|].
  cbn. f_equal. rewrite <- IH by (cbn in Hlen; lia).
  apply imap_ext. reflexivity.
Qed.

(** ** The history cache *)

Lemma free_of_app (c : ascii) (s r : string) : free_of c (s +:+ String c r) = false.
Proof.
  induction s as [|a s IH]; simpl.
  - rewrite Ascii.eqb_refl. reflexivity.
  - rewrite IH. apply andb_false_r.
Qed.

Lemma append_nil (x : string) : EmptyString +:+ x = x.
Proof. reflexivity. Qed.

Lemma append_cons (a : ascii) (s x : string) : String a s +:+ x = String a (s +:+ x).
Proof. reflexivity. Qed.

Lemma underscore_split (s s' r r' : string) :
  free_of "_" r = true -> free_of "_" r' = true ->
  s +:+ String "_" r = s' +:+ String "_" r' -> s = s' /\ r = r'.
Proof.
  intros Hr Hr'. revert s'. induction s as [|a s IH]; intros [|a' s'] H;
    rewrite ?append_nil, ?append_cons in H.
  - injection H as ->. split; reflexivity.
  - injection H as <- ->. rewrite free_of_app in Hr. discriminate Hr.
  - injection H as -> <-. rewrite free_of_app in Hr'. discriminate Hr'.
  - injection H as -> H. destruct (IH _ H) as [-> ->]. split; reflexivity.
Qed.

Lemma cacheKey_injective (s s' r r' : string) :
  free_of "_" r = true -> free_of "_" r' = true ->
  cacheKey s r = cacheKey s' r' -> s = s' /\ r = r'.
Proof.
  intros Hr Hr' H. unfold cacheKey in H.
  rewrite !append_cons, !append_nil in H.
  injection H as H. eapply underscore_split; eassumption.
Qed.

Lemma exec_fetchHistory_miss (up : Upstream) (symbol range : string) (st : State) :
  cache_get (cacheKey symbol range) st = None ->
  exec up (fetchHistory symbol range) st =
  match exec up ensureToken st with
  | (Returned _, st1) =>
      let rq := GetChart symbol range (interval_of range) (crumb st1) (cookieStr st1) in
      let st2 := tick (elapsed (up (sent st1) rq)) (send rq st1) in
      match reply (up (sent st1) rq) with
      | NetworkError m => (Threw m, st2)
      | Arrived resp =>
          if negb (ok resp)
          then (Threw ("Yahoo Chart API error " +:+ pretty (status resp)), st2)
          else match json resp with
               | inl m => (Threw m, st2)
               | inr c =>
                   let history := zipHistory (default [] (chart_timestamp c))
                                             (default [] (bar_close (quote0 c))) in
                   (Returned (CHistory history),
                    cache_set (cacheKey symbol range) (CHistory history) 60 st2)
               end
      end
  | (Threw m, st1) => (Threw m, st1)
  | (Pending, st1) => (Pending, st1)
  end.
Proof.
  intros Hmiss. unfold fetchHistory. cbn [bind get_state exec]. rewrite Hmiss.
  rewrite exec_bind.
  destruct (exec up ensureToken st) as [[[]|m|] st1]; try reflexivity.
  cbn [bind get_state exec fetch]. cbv zeta.
  destruct (reply (up (sent st1) _)) as [m|resp]; [reflexivity|].
  cbn [bind]. destruct (negb (ok resp)); [reflexivity|].
  unfold read_body. destruct (json resp); reflexivity.
Qed.

Lemma initCrumb_cache (up : Upstream) (st : State) :
  cache (snd (exec up initCrumb st)) = cache st.
Proof.
  rewrite exec_initCrumb. unfold initCrumb_run.
  destruct (reply (up (sent st) GetConsent)) as [m|r1]; cbn; [reflexivity|].
  match goal with |- context [reply ?a] => destruct (reply a) as [m|r2] end; cbn;
    [reflexivity|].
  destruct (ok r2); [destruct (text r2)|]; reflexivity.
Qed.

Lemma ensureToken_cache (up : Upstream) (st : State) :
  cache (snd (exec up ensureToken st)) = cache st.
Proof.
  rewrite exec_ensureToken.
  destruct (negb (JS.truthy_str (crumb st)) || negb (JS.truthy_str (cookieStr st)));
    [|reflexivity].
  pose proof (initCrumb_cache up st) as H.
  destruct (exec up initCrumb st) as [[[|]|m|] st1]; exact H.
Qed.

(** C9 (as amended): the cache key of a history is
    [chart_{symbol}_{range}].  On a hit [fetchHistory] returns the cached
    value and leaves the whole state as it was: no handshake, no request.
    On a miss with a token in the store, a chart request that is served
    makes the call return the history built from the payload of the reply,
    after storing it.  Conversely a miss that ends in a return has sent one
    chart request after the guard, for the range and its interval with the
    token then in the store; the reply was a success, and the value returned
    is the history built from the timestamp and close arrays of its payload,
    stored under the key with an expiry 60 seconds after the time of the
    return, so that it is served again for the next 60 seconds; no other key
    of the cache changes.  Two pairs whose ranges hold no underscore have
    the same key only if they are the same pair. *)
Theorem fetchHistory_read_through (up : Upstream) (symbol range : string) (st : State) :
  cacheKey symbol range = "chart_" +:+ symbol +:+ "_" +:+ range
  /\ (forall v, cache_get (cacheKey symbol range) st = Some v ->
                exec up (fetchHistory symbol range) st = (Returned v, st))
  /\ (forall r c,
        cache_get (cacheKey symbol range) st = None -> token_present st ->
        let rq := GetChart symbol range (interval_of range) (crumb st) (cookieStr st) in
        reply (up (sent st) rq) = Arrived r -> ok r = true -> json r = inr c ->
        let h := zipHistory (default [] (chart_timestamp c))
                            (default [] (bar_close (quote0 c))) in
        exec up (fetchHistory symbol range) st
        = (Returned (CHistory h),
           cache_set (cacheKey symbol range) (CHistory h) 60
             (tick (elapsed (up (sent st) rq)) (send rq st))))
  /\ (forall v st',
        cache_get (cacheKey symbol range) st = None ->
        exec up (fetchHistory symbol range) st = (Returned v, st') ->
        let st1 := snd (exec up ensureToken st) in
        let rq := GetChart symbol range (interval_of range) (crumb st1) (cookieStr st1) in
        exists r c,
          reply (up (sent st1) rq) = Arrived r /\ ok r = true /\ json r = inr c
          /\ let h := zipHistory (default [] (chart_timestamp c))
                                 (default [] (bar_close (quote0 c))) in
             v = CHistory h
             /\ sent st' = sent st1 ++ [rq]
             /\ (token_present st -> st1 = st)
             /\ cache st' !! cacheKey symbol range
                = Some {| ce_value := CHistory h; ce_expires := clock st' + 60 * 1000 |}
             /\ (forall ms : N, Z.of_N ms <= 60000 ->
                   cache_get (cacheKey symbol range) (tick ms st') = Some (CHistory h))
             /\ (forall ms : N, 60000 < Z.of_N ms ->
                   cache_get (cacheKey symbol range) (tick ms st') = None)
             /\ (forall k, k <> cacheKey symbol range -> cache st' !! k = cache st !! k))
  /\ (forall symbol' range',
        free_of "_" range = true -> free_of "_" range' = true ->
        cacheKey symbol range = cacheKey symbol' range' ->
        symbol = symbol' /\ range = range').
Proof.
  split; [reflexivity|]. split; [|split; [|split]].
  - intros v Hhit. unfold fetchHistory. cbn [bind get_state exec]. rewrite Hhit. reflexivity.
  - intros r c Hmiss Htok rq Hr Hok Hj h.
    rewrite (exec_fetchHistory_miss _ _ _ _ Hmiss), (exec_ensureToken_present _ _ Htok).
    cbv zeta. fold rq. rewrite Hr, Hok, Hj. reflexivity.
  - intros v st' Hmiss H. cbv zeta. rewrite (exec_fetchHistory_miss _ _ _ _ Hmiss) in H.
    pose proof (ensureToken_cache up st) as Hcache.
    pose proof (exec_ensureToken_present up st) as Hpres.
    destruct (exec up ensureToken st) as [[[]|m|] st1]; try discriminate H.
    cbv zeta in H. cbn [snd] in *.
    destruct (reply (up (sent st1) _)) as [m|resp]; [discriminate H|].
    destruct (ok resp) eqn:Hok; [|discriminate H]. cbn [negb] in H.
    destruct (json resp) as [m|c] eqn:Hj; [discriminate H|].
    injection H as <- <-. exists resp, c.
    split; [reflexivity|]. split; [exact Hok|]. split; [exact Hj|].
    split; [reflexivity|]. split; [reflexivity|].
    split; [intros Htok; injection (Hpres Htok) as ->; reflexivity|].
    unfold cache_get, cache_set. cbn [cache clock tick send].
    rewrite lookup_insert_eq. cbn [ce_expires ce_value].
    split; [reflexivity|]. split; [|split].
    + intros ms Hms. destruct (Z.leb_spec
        (clock st1 + Z.of_N (elapsed (up (sent st1)
           (GetChart symbol range (interval_of range) (crumb st1) (cookieStr st1)))) + Z.of_N ms)
        (clock st1 + Z.of_N (elapsed (up (sent st1)
           (GetChart symbol range (interval_of range) (crumb st1) (cookieStr st1)))) + 60 * 1000));
        [reflexivity|lia].
    + intros ms Hms. destruct (Z.leb_spec
        (clock st1 + Z.of_N (elapsed (up (sent st1)
           (GetChart symbol range (interval_of range) (crumb st1) (cookieStr st1)))) + Z.of_N ms)
        (clock st1 + Z.of_N (elapsed (up (sent st1)
           (GetChart symbol range (interval_of range) (crumb st1) (cookieStr st1)))) + 60 * 1000));
        [lia|reflexivity].
    + intros k Hk. rewrite lookup_insert_ne by congruence. rewrite Hcache. reflexivity.
  - intros symbol' range'. apply cacheKey_injective.
Qed.

Lemma fetchHistory_read_through_witness :
  let rq := GetChart "AAPL" "1d" "5m" (Some "c1") (Some "A=1") in
  let st' := snd (exec healthy (fetchHistory "AAPL" "1d") warm_state) in
  exec healthy (fetchHistory "AAPL" "1d") warm_state
  = (Returned (CHistory sample_history),
     cache_set "chart_AAPL_1d" (CHistory sample_history) 60 (tick 20 (send rq warm_state)))
  /\ sent st' = [rq]
  /\ cache_get "chart_AAPL_1d" (tick 60000 st') = Some (CHistory sample_history)
  /\ cache_get "chart_AAPL_1d" (tick 60001 st') = None.
Proof.
  destruct (fetchHistory_read_through healthy "AAPL" "1d" warm_state)
    as (_ & _ & Hserved & Hmiss & _).
  pose proof (Hserved (chart_response sample_chart) sample_chart eq_refl
                (conj eq_refl eq_refl) eq_refl eq_refl eq_refl) as H.
  cbv zeta in H. cbv zeta. split; [exact H|].
  destruct (Hmiss _ _ eq_refl H) as (r & c & Hr & _ & Hj & K).
  cbv zeta in K. destruct K as (Hv & Hsent & _ & _ & Hlive & Hgone & _).
  rewrite H. cbn [snd]. split; [exact Hsent|].
  pose proof (Hlive 60000%N ltac:(lia)) as L. pose proof (Hgone 60001%N ltac:(lia)) as G.
  rewrite <- Hv in L. split; [exact L|exact G].
Defined.

Example fetchHistory_hit :
  exec healthy (fetchHistory "AAPL" "1d") history_cached
  = (Returned (CHistory sample_history), history_cached).
Proof. vm_compute. reflexivity. Qed.

Example fetchHistory_miss :
  fst (exec healthy (fetchHistory "AAPL" "1d") warm_state) = Returned (CHistory sample_history)
  /\ cache (snd (exec healthy (fetchHistory "AAPL" "1d") warm_state)) !! "chart_AAPL_1d"
     = Some {| ce_value := CHistory sample_history; ce_expires := 61020 |}
  /\ sent (snd (exec healthy (fetchHistory "AAPL" "1d") warm_state))
     = [GetChart "AAPL" "1d" "5m" (Some "c1") (Some "A=1")].
Proof. vm_compute. repeat split. Qed.

(** C9 (as stated) fails on the key.  The key of (AAPL, 1d) is
    [chart_AAPL_1d]: a history cached under [history:AAPL:1d] is not found,
    and the chart is requested upstream.  And two distinct pairs can share
    one key, hence one cache entry. *)
Lemma cacheKey_not_as_specified :
  cacheKey "AAPL" "1d" = "chart_AAPL_1d"
  /\ cacheKey "AAPL" "1d" <> "history:AAPL:1d"
  /\ cache_get "history:AAPL:1d" spec_key_cached = Some (CHistory sample_history)
  /\ sent (snd (exec healthy (fetchHistory "AAPL" "1d") spec_key_cached))
     = [GetChart "AAPL" "1d" "5m" (Some "c1") (Some "A=1")]
  /\ ("A_B", "C") <> ("A", "B_C")
  /\ cacheKey "A_B" "C" = cacheKey "A" "B_C".
Proof. vm_compute. repeat split; discriminate. Qed.

(** ** Validation of a batch request *)

(** C6: a batch request whose body is missing, or whose [symbols] member is
    missing, not an array, or an empty array, is answered 400 with
    [{error: "symbols must be a non-empty array"}], whatever the schedule;
    the state is the one found: no task is started, nothing is sent
    upstream, and the token and the cache are not touched. *)
Theorem batch_rejects_invalid_body (budget : nat) (body : option Field)
  (schedule : list (nat * Answer)) (st : State) :
  (forall symbols, body = Some (FArray symbols) -> symbols = []) ->
  batchHandler budget body schedule st
  = (Some {| code := 400; payload := JsonError "symbols must be a non-empty array" |}, st).
Proof.
  intros H. unfold batchHandler, batchSymbols.
  destruct body as [[| | | | |symbols]|]; try reflexivity.
  rewrite (H symbols eq_refl). reflexivity.
Qed.

Lemma batch_rejects_invalid_body_witness :
  batchHandler 3 (Some (FArray [])) [(0%nat, answer 5 (bare 200))] warm_state
  = (Some {| code := 400; payload := JsonError "symbols must be a non-empty array" |},
     warm_state).
Proof.
  apply (batch_rejects_invalid_body 3 (Some (FArray [])) [(0%nat, answer 5 (bare 200))]
           warm_state).
  intros symbols H. injection H as <-. reflexivity.
Defined.

Example batch_rejects_string : forall st,
  batchHandler 3 (Some (FString "AAPL")) [] st = (Some badRequest, st).
Proof. reflexivity. Qed.

(** ** Cache hits *)

Lemma results_set_result (key : string) (e : Entry) (st : State) :
  results (set_result key e st)
  = if decide (key = "__proto__") then results st else <[key := e]> (results st).
Proof. unfold set_result. destruct (decide (key = "__proto__")); reflexivity. Qed.

Lemma set_result_frame (key : string) (e : Entry) (st : State) :
  sent (set_result key e st) = sent st /\ crumb (set_result key e st) = crumb st
  /\ cookieStr (set_result key e st) = cookieStr st
  /\ cache (set_result key e st) = cache st /\ clock (set_result key e st) = clock st.
Proof. unfold set_result. destruct (decide (key = "__proto__")); repeat split. Qed.



(** A batch whose only symbol is cached is answered without a single
    resumption, and nothing has been sent upstream. *)
Example batch_all_cached :
  let run := batchHandler 3 (Some (FArray ["AAPL"])) [] quote_cached in
  fst run = Some {| code := 200; payload := JsonMap (results (snd run)) |}
  /\ results (snd run) !! "AAPL" = Some (Data (CQuote (makeQuote sample_chart 900)))
  /\ sent (snd run) = [] /\ cache (snd run) = cache quote_cached
  /\ crumb (snd run) = crumb quote_cached /\ cookieStr (snd run) = cookieStr quote_cached.
Proof. vm_compute. repeat split. Qed.

(** ** Rules for assertions *)

Section Rules.

Variables (G R : State -> State -> Prop).

Lemma holds_mono {A : Type} (QR QR' : A -> State -> Prop) (QT QT' : string -> State -> Prop)
  (p : async A) (st : State) :
  (forall a s, QR a s -> QR' a s) -> (forall m s, QT m s -> QT' m s) ->
  holds G R QR QT p st -> holds G R QR' QT' p st.
Proof.
  intros HR HT. revert st.
  induction p as [a|m| |k IH|g k IH|rq k IH|k IH]; intros st H; cbn in *; auto.
  - destruct H as [Hg H]. split; auto.
  - destruct H as [Hg H]. split; auto.
Qed.

Lemma holds_bind {A B : Type} (QR : B -> State -> Prop) (QT : string -> State -> Prop)
  (p : async A) (f : A -> async B) (st : State) :
  holds G R (fun a s => holds G R QR QT (f a) s) QT p st ->
  holds G R QR QT (bind p f) st.
Proof.
  revert st. induction p as [a|m| |k IH|g k IH|rq k IH|k IH]; intros st H; cbn in *; auto.
  - destruct H as [Hg H]. split; auto.
  - destruct H as [Hg H]. split; auto.
Qed.

Lemma holds_try_catch {A : Type} (QR : A -> State -> Prop) (QT : string -> State -> Prop)
  (p : async A) (h : string -> async A) (st : State) :
  holds G R QR (fun m s => holds G R QR QT (h m) s) p st ->
  holds G R QR QT (try_catch p h) st.
Proof.
  revert st. induction p as [a|m| |k IH|g k IH|rq k IH|k IH]; intros st H; cbn in *; auto.
  - destruct H as [Hg H]. split; auto.
  - destruct H as [Hg H]. split; auto.
Qed.

End Rules.

Lemma holds_weaken {A : Type} (G G' R R' : State -> State -> Prop)
  (QR : A -> State -> Prop) (QT : string -> State -> Prop) (p : async A) (st : State) :
  (forall s s', G s s' -> G' s s') -> (forall s s', R' s s' -> R s s') ->
  holds G R QR QT p st -> holds G' R' QR QT p st.
Proof.
  intros HG HR. revert st.
  induction p as [a|m| |k IH|g k IH|rq k IH|k IH]; intros st H; cbn in *; auto.
  - destruct H as [Hg H]. split; auto.
  - destruct H as [Hg H]. split; auto.
Qed.

(** An assertion that holds of a computation holds of its run against any
    upstream, as long as the passing of time is something the other tasks
    may do. *)
Lemma holds_exec {A : Type} (G R : State -> State -> Prop)
  (QR : A -> State -> Prop) (QT : string -> State -> Prop)
  (up : Upstream) (p : async A) (st : State) :
  (forall s, R s s) -> (forall s ms, R s (tick ms s)) ->
  holds G R QR QT p st ->
  match exec up p st with
  | (Returned a, st') => QR a st'
  | (Threw m, st') => QT m st'
  | (Pending, _) => True
  end.
Proof.
  intros Hrefl Htick. revert st.
  induction p as [a|m| |k IH|g k IH|rq k IH|k IH]; intros st H; cbn in *.
  - exact H.
  - exact H.
  - exact I.
  - apply IH, H.
  - apply IH, H.
  - apply IH, H, Htick.
  - apply IH, H, Hrefl.
Qed.

(** ** The fetcher leaves the results and the cache alone *)

Ltac quiet_walk :=
  repeat first
    [ progress intros
    | exact I
    | split
    | reflexivity
    | match goal with
      | |- context [match ?x with _ => _ end] => destruct x
      end
    | progress cbn ].

Lemma initCrumb_quiet (st : State) :
  holds quiet anything whatever whatever initCrumb st.
Proof. unfold initCrumb, whatever, quiet. cbn. quiet_walk. Qed.

Lemma holds_then {A B : Type} (G R : State -> State -> Prop)
  (p : async A) (f : A -> async B) (st : State) :
  holds G R whatever whatever p st ->
  (forall a s, holds G R whatever whatever (f a) s) ->
  holds G R whatever whatever (bind p f) st.
Proof.
  intros Hp Hf. apply holds_bind. revert Hp. apply holds_mono; [|auto].
  intros a s _. apply Hf.
Qed.

Lemma await_quiet {A : Type} (p : async A) (st : State) :
  holds quiet anything whatever whatever p st ->
  holds quiet anything whatever whatever (await p) st.
Proof.
  intros H. unfold await. apply holds_then; [exact H|]. intros a s. cbn. intros; exact I.
Qed.

Lemma ensureToken_quiet (st : State) :
  holds quiet anything whatever whatever ensureToken st.
Proof.
  unfold ensureToken. cbn [bind get_state holds].
  destruct (negb (JS.truthy_str (crumb st)) || negb (JS.truthy_str (cookieStr st)));
    [|exact I].
  apply holds_then; [apply await_quiet, initCrumb_quiet|].
  intros [|] s; exact I.
Qed.

Lemma fetchQuote_quiet (budget : nat) (symbol : string) (st : State) :
  holds quiet anything whatever whatever (fetchQuote budget symbol) st.
Proof.
  revert st. induction budget as [|budget IH]; intros st; [exact I|].
  cbn [fetchQuote]. apply holds_then; [apply ensureToken_quiet|].
  intros _ s1. cbn [bind get_state holds fetch].
  split; [repeat split|]. intros [m|resp] s2 _; cbn [bind]; [exact I|].
  destruct ((status resp =? 401) || (status resp =? 403))%N.
  - apply holds_then; [apply await_quiet, initCrumb_quiet|]. intros _ s3. apply IH.
  - destruct (negb (ok resp)); [exact I|].
    unfold read_body. cbn. intros s3 _. destruct (json resp); exact I.
Qed.

(** ** The invariant of a batch is kept by every task *)

Section BatchRules.

Variable symbols : list string.

Lemma rely_refl (st : State) : rely symbols st st.
Proof. split; auto. Qed.

Lemma rely_trans (st1 st2 st3 : State) :
  rely symbols st1 st2 -> rely symbols st2 st3 -> rely symbols st1 st3.
Proof. intros [H1 K1] [H2 K2]. split; auto. Qed.

Lemma guarantee_refl (s : string) (st : State) : guarantee symbols s st st.
Proof. split; [apply rely_refl|auto]. Qed.

Lemma guarantee_trans (s : string) (st1 st2 st3 : State) :
  guarantee symbols s st1 st2 -> guarantee symbols s st2 st3 -> guarantee symbols s st1 st3.
Proof.
  intros [H1 K1] [H2 K2]. split; [eapply rely_trans; eassumption|].
  intros k Hk. rewrite K2, K1 by assumption. reflexivity.
Qed.

Lemma quiet_guarantee (s : string) (st st' : State) :
  quiet st st' -> guarantee symbols s st st'.
Proof.
  intros (Hr & Hc & Ht). split; [split|].
  - intros [HJ HI]. split.
    + intros s0 v Hs0. unfold cache_get. rewrite Hc, Ht. apply HJ, Hs0.
    + intros k e. rewrite Hr. apply HI.
  - intros k. rewrite Hr. auto.
  - intros k _. rewrite Hr. reflexivity.
Qed.

Lemma tick_rely (ms : N) (st : State) : rely symbols st (tick ms st).
Proof.
  split; [|auto]. intros [HJ HI]. split; [|exact HI].
  intros s v Hs. unfold cache_get. cbn [cache clock tick].
  destruct (cache st !! s) as [e|] eqn:E; [|discriminate].
  destruct (Z.leb_spec (clock st + Z.of_N ms) (ce_expires e)); [|discriminate].
  intros Hv. apply (HJ s v Hs). unfold cache_get. rewrite E.
  destruct (Z.leb_spec (clock st) (ce_expires e)); [exact Hv|lia].
Qed.

Lemma set_result_guarantee (s : string) (e : Entry) (st : State) :
  s ∈ symbols -> (batch_inv symbols st -> quote_or_error e) ->
  guarantee symbols s st (set_result s e st).
Proof.
  intros Hs He. unfold set_result.
  destruct (decide (s = "__proto__")) as [Hp|Hp]; [apply guarantee_refl|].
  split; [split|].
  - intros Hinv. pose proof (He Hinv) as Hqe. destruct Hinv as [HJ HI]. split; [exact HJ|].
    intros k e'. cbn [results]. rewrite lookup_insert.
    destruct (decide (s = k)) as [<-|Hne]; [|apply HI].
    intros [= <-]. repeat split; assumption.
  - intros k. cbn [results]. rewrite lookup_insert.
    destruct (decide (s = k)); eauto.
  - intros k Hk. cbn [results]. apply lookup_insert_ne. congruence.
Qed.

Lemma set_result_recorded (s : string) (e : Entry) (st : State) :
  recorded s tt (set_result s e st).
Proof.
  intros Hp. rewrite results_set_result.
  destruct (decide (s = "__proto__")); [contradiction|].
  rewrite lookup_insert_eq. eauto.
Qed.

Lemma cache_set_guarantee (s k : string) (q : Quote) (ttl : Z) (st : State) :
  guarantee symbols s st (cache_set k (CQuote q) ttl st).
Proof.
  split; [split|]; [|auto|auto].
  intros [HJ HI]. split; [|exact HI].
  intros s0 v Hs0. unfold cache_get. cbn [cache clock cache_set]. rewrite lookup_insert.
  destruct (decide (k = s0)) as [<-|Hne]; [|apply HJ, Hs0].
  cbn [ce_expires ce_value]. destruct (_ <=? _); [|discriminate].
  intros [= <-]. eauto.
Qed.

(** The task of a listed symbol never throws, only ever writes the entry of
    its own symbol, and has written it when it returns. *)
Lemma batchTask_ok (budget : nat) (s : string) (st : State) :
  s ∈ symbols -> task_ok symbols s (batchTask budget s) st.
Proof.
  intros Hs. unfold task_ok, batchTask. apply holds_try_catch.
  assert (Hcatch : forall m st0,
    holds (guarantee symbols s) (rely symbols) (recorded s) never (batchCatch s m) st0).
  { intros m st0. cbn. split.
    - apply set_result_guarantee; [exact Hs|]. intros _. right. eauto.
    - apply set_result_recorded. }
  unfold batchBody. cbn [bind get_state holds].
  destruct (cache_get s st) as [cached|] eqn:Ec.
  - cbn. split.
    + apply set_result_guarantee; [exact Hs|]. intros [HJ _]. left.
      destruct (HJ s cached Hs Ec) as [q ->]. eauto.
    + apply set_result_recorded.
  - apply holds_bind. unfold await. apply holds_bind.
    eapply holds_mono; [| |eapply holds_weaken; [| |apply (fetchQuote_quiet budget s st)]].
    + intros data st0 _. cbn. intros st1 _. split; [apply cache_set_guarantee|]. split.
      * apply set_result_guarantee; [exact Hs|]. intros _. left. eauto.
      * apply set_result_recorded.
    + intros m st0 _. apply Hcatch.
    + intros st0 st1. apply quiet_guarantee.
    + intros st0 st1 _. exact I.
Qed.

(** In particular a task run alone never throws, and has recorded its
    symbol when it returns. *)
Lemma batchTask_alone (up : Upstream) (budget : nat) (s : string) (st : State) :
  s ∈ symbols ->
  match exec up (batchTask budget s) st with
  | (Returned _, st') => s <> "__proto__" -> is_Some (results st' !! s)
  | (Threw _, _) => False
  | (Pending, _) => True
  end.
Proof.
  intros Hs.
  apply (holds_exec (guarantee symbols s) (rely symbols) (recorded s) never).
  - apply rely_refl.
  - intros s0 ms. apply tick_rely.
  - apply batchTask_ok, Hs.
Qed.

End BatchRules.

(** ** A task, step by step *)

Lemma settle_batchAround (s : string) (p : async Quote) (st : State) :
  settle (batchAround s p) st = batchOutcome s (settle p st).
Proof.
  revert st. induction p as [a|m| |k IH|g k IH|rq k IH|k IH]; intros st; try reflexivity.
  - apply IH.
  - apply IH.
Qed.

Lemma resume_batchAround (s : string) (p : async Quote) (a : Answer) (st : State) :
  suspended p = true ->
  resume a (batchAround s p) st = batchOutcome s (resume a p st).
Proof.
  destruct p as [q|m| |k|g k|rq k|k]; try discriminate; intros _; cbn [resume].
  - apply (settle_batchAround s (k (reply a))).
  - apply (settle_batchAround s k).
Qed.

Lemma settle_batchTask_miss (budget : nat) (s : string) (st : State) :
  cache_get s st = None ->
  settle (batchTask budget s) st
  = batchOutcome s (settle (await (fetchQuote budget s)) st).
Proof.
  intros Hmiss. rewrite <- settle_batchAround.
  unfold batchTask, batchBody, batchAround. cbn [bind get_state try_catch settle].
  rewrite Hmiss. reflexivity.
Qed.

(** ** The pool of a batch *)

Section Pool.

Variable symbols : list string.

Lemma settle_ok (s : string) (p : async unit) (st : State) :
  task_ok symbols s p st ->
  suspended_ok symbols s (fst (settle p st)) (snd (settle p st))
  /\ guarantee symbols s st (snd (settle p st)).
Proof.
  unfold task_ok. revert st.
  induction p as [a|m| |k IH|g k IH|rq k IH|k IH]; intros st H; cbn in *.
  - split; [exact H|apply guarantee_refl].
  - destruct H.
  - split; [exact I|apply guarantee_refl].
  - apply IH, H.
  - destruct H as [Hg H]. destruct (IH _ H) as [Hs Hg']. split; [exact Hs|].
    eapply guarantee_trans; eassumption.
  - destruct H as [Hg H]. split; [exact H|exact Hg].
  - split; [exact H|apply guarantee_refl].
Qed.

Lemma suspended_stable (s : string) (p : async unit) (st st' : State) :
  suspended_ok symbols s p st -> rely symbols st st' -> suspended_ok symbols s p st'.
Proof.
  intros H Hr. destruct p as [a|m| |k|g k|rq k|k]; cbn in *; auto.
  - intros Hne. apply Hr, H, Hne.
  - intros r st'' Hr'. apply H. eapply rely_trans; eassumption.
  - intros st'' Hr'. apply H. eapply rely_trans; eassumption.
Qed.

Lemma tick_guarantee (s : string) (ms : N) (st : State) :
  guarantee symbols s st (tick ms st).
Proof. split; [apply tick_rely|auto]. Qed.

Lemma resume_ok (s : string) (a : Answer) (p : async unit) (st : State) :
  suspended_ok symbols s p st ->
  suspended_ok symbols s (fst (resume a p st)) (snd (resume a p st))
  /\ guarantee symbols s st (snd (resume a p st)).
Proof.
  intros H. destruct p as [u|m| |k|g k|rq k|k]; cbn [resume fst snd];
    try (split; [exact H|apply guarantee_refl]).
  - destruct (settle_ok s (k (reply a)) (tick (elapsed a) st)) as [Hs Hg].
    { apply H, tick_rely. }
    split; [exact Hs|]. eapply guarantee_trans; [apply tick_guarantee|exact Hg].
  - apply settle_ok, H, rely_refl.
Qed.

Lemma pool_step_ok (syms : list string) (pool : list (async unit)) (i : nat) (a : Answer)
  (st : State) :
  Forall2 (fun s p => suspended_ok symbols s p st) syms pool ->
  Forall2 (fun s p => suspended_ok symbols s p (snd (pool_step i a pool st)))
          syms (fst (pool_step i a pool st))
  /\ rely symbols st (snd (pool_step i a pool st))
  /\ forall k, syms !! i <> Some k ->
               results (snd (pool_step i a pool st)) !! k = results st !! k.
Proof.
  intros H. revert i. induction H as [|s p syms pool Hp Hrest IH]; intros i.
  - cbn. split; [constructor|]. split; [apply rely_refl|auto].
  - destruct i as [|j]; cbn [pool_step].
    + destruct (resume_ok s a p st Hp) as [Hs [Hr Hf]].
      destruct (resume a p st) as [p' st']. cbn [fst snd] in *.
      split; [|split; [exact Hr|]].
      * constructor; [exact Hs|].
        eapply Forall2_impl; [exact Hrest|]. intros s0 p0 H0. cbv beta in H0.
        eapply suspended_stable; eassumption.
      * intros k Hk. apply Hf. intros E. apply Hk. rewrite E. reflexivity.
    + destruct (IH j) as (Hall & Hr & Hf).
      destruct (pool_step j a pool st) as [pool' st']. cbn [fst snd] in *.
      split; [|split; [exact Hr|exact Hf]].
      constructor; [|exact Hall]. eapply suspended_stable; eassumption.
Qed.

Lemma run_schedule_ok (syms : list string) (schedule : list (nat * Answer))
  (pool : list (async unit)) (st : State) :
  Forall2 (fun s p => suspended_ok symbols s p st) syms pool ->
  Forall2 (fun s p => suspended_ok symbols s p (snd (run_schedule schedule pool st)))
          syms (fst (run_schedule schedule pool st))
  /\ rely symbols st (snd (run_schedule schedule pool st)).
Proof.
  revert pool st. induction schedule as [|[i a] rest IH]; intros pool st H; cbn [run_schedule].
  - split; [exact H|apply rely_refl].
  - destruct (pool_step_ok syms pool i a st H) as (H1 & Hr1 & _).
    destruct (pool_step i a pool st) as [pool' st']. cbn [fst snd] in *.
    destruct (IH pool' st' H1) as [H2 Hr2]. split; [exact H2|].
    eapply rely_trans; eassumption.
Qed.

Lemma spawn_ok (budget : nat) (syms : list string) (st : State) :
  (forall s, s ∈ syms -> s ∈ symbols) ->
  Forall2 (fun s p => suspended_ok symbols s p (snd (spawn (batchTask budget <$> syms) st)))
          syms (fst (spawn (batchTask budget <$> syms) st))
  /\ rely symbols st (snd (spawn (batchTask budget <$> syms) st)).
Proof.
  revert st. induction syms as [|s syms IH]; intros st Hsub.
  - cbn. split; [constructor|apply rely_refl].
  - cbn [fmap list_fmap spawn].
    destruct (settle_ok s (batchTask budget s) st) as [Hs [Hr _]].
    { apply batchTask_ok, Hsub. left. }
    destruct (settle (batchTask budget s) st) as [p st1]. cbn [fst snd] in *.
    destruct (IH st1) as [Hall Hr'].
    { intros s0 H0. apply Hsub. right. exact H0. }
    change (list_fmap string (async unit) (batchTask budget) syms)
      with (batchTask budget <$> syms).
    destruct (spawn (batchTask budget <$> syms) st1) as [pool st2]. cbn [fst snd] in *.
    split; [|eapply rely_trans; eassumption].
    constructor; [|exact Hall]. eapply suspended_stable; eassumption.
Qed.

Lemma pool_never_rejects (syms : list string) (pool : list (async unit)) (st : State) :
  Forall2 (fun s p => suspended_ok symbols s p st) syms pool -> rejection pool = None.
Proof.
  induction 1 as [|s p syms pool Hp _ IH]; [reflexivity|].
  destruct p; cbn in *; auto. destruct Hp.
Qed.

Lemma pool_fulfilled_recorded (syms : list string) (pool : list (async unit)) (st : State) :
  Forall2 (fun s p => suspended_ok symbols s p st) syms pool ->
  forallb fulfilled pool = true ->
  forall s, s ∈ syms -> s <> "__proto__" -> is_Some (results st !! s).
Proof.
  induction 1 as [|s p syms pool Hp _ IH]; intros Hall s0 Hs0 Hne.
  - inversion Hs0.
  - cbn in Hall. apply andb_prop in Hall as [Hf Hall].
    apply elem_of_cons in Hs0 as [->|Hs0]; [|apply IH; assumption].
    destruct p; try discriminate Hf. exact (Hp Hne).
Qed.

End Pool.

Lemma batchSymbols_nonempty (symbols : list string) :
  symbols <> [] -> batchSymbols (Some (FArray symbols)) = Some symbols.
Proof. destruct symbols; [congruence|reflexivity]. Qed.

(** C5 (as amended): a non-empty list of symbols is served from a cache
    that answers with a quote for every listed symbol it answers for; the
    tasks are resumed in any order, with any replies.  The handler sends its
    response only when every task has finished, never the 500 of line 167,
    and the mapping it sends has exactly the listed symbols other than
    [__proto__] as keys, each with a Quote Record or an error descriptor (the
    assignment to [results.__proto__] creates no key).  Resuming a task
    changes no entry
    but the one of its own symbol.  A task whose call of [fetchQuote] fails
    with message [m], at whatever point, finishes in that same step with the
    entry [{error: m}]; one whose call returns a record caches and records
    it; otherwise the task is still waiting for its call. *)
Theorem batch_isolates_failures (budget : nat) (symbols : list string)
  (schedule : list (nat * Answer)) (st : State) :
  symbols <> [] ->
  quotes_cached symbols st ->
  let started := spawn (batchTask budget <$> symbols) (new_results st) in
  let played := run_schedule schedule (fst started) (snd started) in
  batchHandler budget (Some (FArray symbols)) schedule st
  = (if forallb fulfilled (fst played)
     then Some {| code := 200; payload := JsonMap (results (snd played)) |}
     else None,
     snd played)
  /\ (forallb fulfilled (fst played) = true ->
      (forall s, is_Some (results (snd played) !! s) <-> s ∈ symbols /\ s <> "__proto__")
      /\ (forall s e, results (snd played) !! s = Some e -> quote_or_error e))
  /\ (forall i a k,
        symbols !! i <> Some k ->
        results (snd (pool_step i a (fst played) (snd played))) !! k
        = results (snd played) !! k)
  /\ (forall s st0,
        cache_get s st0 = None ->
        settle (batchTask budget s) st0
        = batchOutcome s (settle (await (fetchQuote budget s)) st0))
  /\ (forall s p a st0,
        suspended p = true ->
        resume a (batchAround s p) st0 = batchOutcome s (resume a p st0)).
Proof.
  intros Hne Hq started played.
  assert (Hinv0 : batch_inv symbols (new_results st)).
  { split; [exact Hq|]. intros k e. cbn. rewrite lookup_empty. discriminate. }
  destruct (spawn_ok symbols budget symbols (new_results st)) as [Hall1 Hr1]; [auto|].
  fold started in Hall1, Hr1.
  destruct (run_schedule_ok symbols symbols schedule _ _ Hall1) as [Hall2 Hr2].
  fold played in Hall2, Hr2.
  assert (Hinv2 : batch_inv symbols (snd played)) by (apply Hr2, Hr1, Hinv0).
  split; [|split; [|split; [|split]]].
  - unfold batchHandler. rewrite (batchSymbols_nonempty _ Hne).
    pose proof (pool_never_rejects symbols symbols _ _ Hall2) as Hrej.
    subst played started.
    destruct (spawn (batchTask budget <$> symbols) (new_results st)) as [pool st1].
    cbn [fst snd] in *.
    destruct (run_schedule schedule pool st1) as [pool' st2]. cbn [fst snd] in *.
    rewrite Hrej. destruct (forallb fulfilled pool'); reflexivity.
  - intros Hdone. split.
    + intros s. split.
      * intros [e He]. destruct (proj2 Hinv2 s e He) as (K1 & K2 & _). split; assumption.
      * intros [Hs Hp]. apply (pool_fulfilled_recorded symbols symbols _ _ Hall2 Hdone s Hs Hp).
    + intros s e He. apply (proj2 Hinv2 s e He).
  - intros i a k Hk. apply (pool_step_ok symbols symbols _ i a _ Hall2). exact Hk.
  - intros s st0. apply settle_batchTask_miss.
  - intros s p a st0. apply resume_batchAround.
Qed.

Lemma batch_isolates_failures_witness :
  let run := batchHandler 3 (Some (FArray ["GOOD"; "BAD"])) good_bad_schedule warm_state in
  fst run = Some {| code := 200; payload := JsonMap (results (snd run)) |}
  /\ results (snd run) !! "GOOD" = Some (Data (CQuote (makeQuote sample_chart 1027)))
  /\ results (snd run) !! "BAD" = Some (Failure "boom")
  /\ (forall s, is_Some (results (snd run) !! s) <-> s ∈ ["GOOD"; "BAD"] /\ s <> "__proto__")
  /\ (forall s e, results (snd run) !! s = Some e -> quote_or_error e).
Proof.
  assert (Hq : quotes_cached ["GOOD"; "BAD"] warm_state).
  { intros s v _ H. unfold cache_get in H. cbn in H. rewrite lookup_empty in H.
    discriminate H. }
  pose proof (batch_isolates_failures 3 ["GOOD"; "BAD"] good_bad_schedule warm_state
                ltac:(discriminate) Hq) as H.
  cbv zeta in H. destruct H as (H1 & H2 & _).
  cbv zeta. rewrite H1. cbn [fst snd].
  assert (Hdone : forallb fulfilled
            (fst (run_schedule good_bad_schedule
                    (fst (spawn (batchTask 3 <$> ["GOOD"; "BAD"]) (new_results warm_state)))
                    (snd (spawn (batchTask 3 <$> ["GOOD"; "BAD"]) (new_results warm_state)))))
          = true) by (vm_compute; reflexivity).
  rewrite Hdone. destruct (H2 Hdone) as [Hkeys Hentries].
  split; [reflexivity|]. split; [vm_compute; reflexivity|].
  split; [vm_compute; reflexivity|]. split; assumption.
Defined.

(** While the task of [GOOD] has not finished, no response is sent. *)
Example batch_waits :
  fst (batchHandler 3 (Some (FArray ["GOOD"; "BAD"]))
         [(0%nat, served); (1%nat, boom); (0%nat, served)] warm_state) = None.
Proof. vm_compute. reflexivity. Qed.

(** A listed [__proto__] gets no key: the batch of that symbol alone, its
    fetch failed, is answered 200 with the empty mapping. *)
Example batch_proto_key :
  fst (batchHandler 3 (Some (FArray ["__proto__"])) [(0%nat, boom)] warm_state)
  = Some {| code := 200; payload := JsonMap ∅ |}.
Proof. vm_compute. reflexivity. Qed.

(** C5 (as stated) fails on the kind of entry.  After a history request for
    (AAPL, 1d), the cache holds the series under [chart_AAPL_1d]; a batch
    that lists the symbol [chart_AAPL_1d] finds it there, and its mapping
    gives that symbol the series: neither a Quote Record nor an error
    descriptor. *)
Lemma batch_serves_cached_history :
  let st := snd (exec healthy (historyHandler "AAPL" (Some "1d")) warm_state) in
  let run := batchHandler 3 (Some (FArray ["chart_AAPL_1d"])) [] st in
  fst run = Some {| code := 200; payload := JsonMap (results (snd run)) |}
  /\ results (snd run) !! "chart_AAPL_1d" = Some (Data (CHistory sample_history))
  /\ ~ quote_or_error (Data (CHistory sample_history)).
Proof.
  cbv zeta. split; [vm_compute; reflexivity|]. split; [vm_compute; reflexivity|].
  intros [[q H]|[m H]]; discriminate H.
Qed.

(** * Further properties of the program *)

(** ** The handshake and the start of the server *)

(** X1: [initCrumb] sends the consent request, and then, only if a consent
    response arrived, one crumb request carrying the cookie header built from
    that response; it never sends a chart request.  The start of the server
    (lines 188-190) always reaches [app.listen], whatever the upstream
    answers. *)
Theorem initCrumb_requests (up : Upstream) (st : State) :
  match reply (up (sent st) GetConsent) with
  | NetworkError _ => sent (snd (exec up initCrumb st)) = sent st ++ [GetConsent]
  | Arrived r1 =>
      sent (snd (exec up initCrumb st))
      = sent st ++ [GetConsent; GetCrumb (Some (cookie_header r1))]
  end
  /\ chart_requests (sent (snd (exec up initCrumb st))) = chart_requests (sent st)
  /\ fst (exec up startup st) = Returned tt
  /\ snd (exec up startup st) = snd (exec up initCrumb st).
Proof.
  split; [|split].
  - rewrite exec_initCrumb. unfold initCrumb_run.
    destruct (reply (up (sent st) GetConsent)) as [m|r1]; cbn; [reflexivity|].
    match goal with |- context [reply ?a] => destruct (reply a) as [m|r2] end; cbn.
    2: destruct (ok r2); [destruct (text r2)|]; cbn.
    all: rewrite <- app_assoc; reflexivity.
  - apply initCrumb_counts.
  - unfold startup. rewrite exec_bind.
    destruct (initCrumb_run_returns up st) as [b Hb]. rewrite <- exec_initCrumb in Hb.
    destruct (exec up initCrumb st) as [o st']. cbn in Hb. subst o. split; reflexivity.
Qed.

(** ** The cookie header *)

(** X2: [c.split(';')[0]] is the part of [c] before its first semicolon: it
    holds no semicolon, [c] is that part followed by nothing or by a
    semicolon and the rest, and a cookie without a semicolon is kept whole. *)
Theorem first_field_spec (c : string) :
  free_of ";" (first_field c) = true
  /\ (exists rest, c = first_field c +:+ rest
                   /\ (rest = EmptyString \/ exists r, rest = String ";" r))
  /\ (free_of ";" c = true -> first_field c = c).
Proof.
  induction c as [|a c (IH1 & (rest & IH2 & IH3) & IH4)]; cbn [first_field free_of].
  - split; [reflexivity|]. split; [|reflexivity].
    exists EmptyString. split; [reflexivity|left; reflexivity].
  - destruct (Ascii.eqb_spec a ";") as [->|Hne].
    + split; [reflexivity|]. split; [|discriminate].
      exists (String ";" c). split; [reflexivity|right; eauto].
    + cbn [free_of]. rewrite IH1.
      assert (E : Ascii.eqb a ";" = false) by (apply Ascii.eqb_neq, Hne).
      rewrite E. split; [reflexivity|]. split.
      * exists rest. split; [|exact IH3]. rewrite append_cons. rewrite <- IH2. reflexivity.
      * cbn. intros H. rewrite IH4 by exact H. reflexivity.
Qed.

Lemma join_empty (sep : string) (xs : list string) :
  sep <> EmptyString ->
  join sep xs = EmptyString <-> xs = [] \/ xs = [EmptyString].
Proof.
  intros Hsep. split.
  - destruct xs as [|x [|y rest]]; cbn [join].
    + auto.
    + intros ->. auto.
    + intros H. exfalso. destruct x as [|a x]; [|discriminate H].
      rewrite append_nil in H. destruct sep; [congruence|discriminate H].
  - intros [-> | ->]; reflexivity.
Qed.

(** X3: the cookie header built from a consent response is empty, and so
    fails the test of line 41, exactly when the response sets no cookie (or
    the runtime has no [getSetCookie]) or a single cookie whose first field is
    empty. *)
Theorem cookie_header_empty (r : Response) :
  (cookie_header r = EmptyString
   <-> first_field <$> default [] (getSetCookie r) = []
       \/ first_field <$> default [] (getSetCookie r) = [EmptyString])
  /\ (JS.truthy_str (Some (cookie_header r)) = false <-> cookie_header r = EmptyString).
Proof.
  split.
  - unfold cookie_header. apply join_empty. discriminate.
  - cbn. destruct (cookie_header r); split; intros H; congruence.
Qed.

(** ** The quote fetcher: first reply, failures, frame *)

(** X4: with a token in the store, the reply to the first chart request
    settles the call unless its status is 401 or 403.  A network failure and
    an unreadable body are thrown with their own message, another status that
    is not a success is thrown as [Yahoo API error <status>], and a served
    request gives the record, stamped with the time of the reply.  In all
    four cases this one request is all that was sent, and the token is the one
    found. *)
Theorem fetchQuote_first_reply (up : Upstream) (budget : nat) (symbol : string) (st : State) :
  token_present st ->
  let rq := GetChart symbol "1d" "1d" (crumb st) (cookieStr st) in
  let st1 := tick (elapsed (up (sent st) rq)) (send rq st) in
  (forall m, reply (up (sent st) rq) = NetworkError m ->
             exec up (fetchQuote (S budget) symbol) st = (Threw m, st1))
  /\ (forall r, reply (up (sent st) rq) = Arrived r -> ok r = false ->
                status r <> 401%N -> status r <> 403%N ->
                exec up (fetchQuote (S budget) symbol) st
                = (Threw ("Yahoo API error " +:+ pretty (status r)), st1))
  /\ (forall r m, reply (up (sent st) rq) = Arrived r -> ok r = true -> json r = inl m ->
                  exec up (fetchQuote (S budget) symbol) st = (Threw m, st1))
  /\ (forall r c, reply (up (sent st) rq) = Arrived r -> ok r = true -> json r = inr c ->
                  exec up (fetchQuote (S budget) symbol) st
                  = (Returned (makeQuote c (clock st1)), st1))
  /\ sent st1 = sent st ++ [rq] /\ crumb st1 = crumb st /\ cookieStr st1 = cookieStr st.
Proof.
  intros Hpre rq st1.
  assert (E : forall o, exec up (fetchQuote (S budget) symbol) st = o <->
    match reply (up (sent st) rq) with
    | NetworkError m => (Threw m, st1)
    | Arrived resp =>
        if ((status resp =? 401) || (status resp =? 403))%N
        then exec up (fetchQuote budget symbol) (snd (exec up initCrumb st1))
        else if negb (ok resp)
        then (Threw ("Yahoo API error " +:+ pretty (status resp)), st1)
        else match json resp with
             | inl m => (Threw m, st1)
             | inr c => (Returned (makeQuote c (clock st1)), st1)
             end
    end = o).
  { intros o. rewrite exec_fetchQuote_S, (exec_ensureToken_present _ _ Hpre). reflexivity. }
  repeat split.
  - intros m Hm. apply E. rewrite Hm. reflexivity.
  - intros r Hr Hok H401 H403. apply E. rewrite Hr, Hok.
    apply N.eqb_neq in H401, H403. rewrite H401, H403. reflexivity.
  - intros r m Hr Hok Hj. apply E. rewrite Hr, (ok_not_unauthorized _ Hok), Hok, Hj.
    reflexivity.
  - intros r c Hr Hok Hj. apply E. rewrite Hr, (ok_not_unauthorized _ Hok), Hok, Hj.
    reflexivity.
Qed.

Lemma fetchQuote_first_reply_witness :
  exec chart_down (fetchQuote 4 "AAPL") warm_state
  = (Threw "Yahoo API error 503",
     tick 20 (send (GetChart "AAPL" "1d" "1d" (Some "c1") (Some "A=1")) warm_state))
  /\ exec offline (fetchQuote 4 "AAPL") warm_state
     = (Threw "fetch failed",
        tick 3 (send (GetChart "AAPL" "1d" "1d" (Some "c1") (Some "A=1")) warm_state)).
Proof.
  pose proof (fetchQuote_first_reply chart_down 3 "AAPL" warm_state
                ltac:(split; reflexivity)) as Hdown.
  pose proof (fetchQuote_first_reply offline 3 "AAPL" warm_state
                ltac:(split; reflexivity)) as Hoff.
  cbv zeta in Hdown, Hoff.
  destruct Hdown as (_ & Hdown & _). destruct Hoff as (Hoff & _).
  split.
  - apply (Hdown (bare 503)); [reflexivity|reflexivity|discriminate|discriminate].
  - apply (Hoff "fetch failed"). reflexivity.
Defined.

(** X5: without a token in the store, a handshake that fails ends the call
    with [Cannot acquire Yahoo Finance crumb] before any chart request is
    sent, whatever the depth of recursion allowed. *)
Theorem fetchQuote_cannot_acquire (up : Upstream) (budget : nat) (symbol : string)
  (st : State) :
  JS.truthy_str (crumb st) && JS.truthy_str (cookieStr st) = false ->
  fst (exec up initCrumb st) = Returned false ->
  exec up (fetchQuote (S budget) symbol) st
  = (Threw "Cannot acquire Yahoo Finance crumb", snd (exec up initCrumb st))
  /\ chart_requests (sent (snd (exec up initCrumb st))) = chart_requests (sent st).
Proof.
  intros Hno Hfail. split; [|apply initCrumb_counts].
  rewrite exec_fetchQuote_S, exec_ensureToken.
  replace (negb (JS.truthy_str (crumb st)) || negb (JS.truthy_str (cookieStr st)))
    with true by (destruct (JS.truthy_str (crumb st)), (JS.truthy_str (cookieStr st));
                  cbn in *; congruence).
  destruct (exec up initCrumb st) as [o st1]. cbn in Hfail. subst o. reflexivity.
Qed.

Lemma fetchQuote_cannot_acquire_witness :
  exec offline (fetchQuote 4 "AAPL") empty_state
  = (Threw "Cannot acquire Yahoo Finance crumb", snd (exec offline initCrumb empty_state))
  /\ chart_requests (sent (snd (exec offline initCrumb empty_state)))
     = chart_requests (sent empty_state).
Proof.
  apply (fetchQuote_cannot_acquire offline 3 "AAPL" empty_state); reflexivity.
Defined.

Lemma untouched_refl (st : State) : untouched st st.
Proof. repeat split; lia. Qed.

Lemma untouched_trans (st1 st2 st3 : State) :
  untouched st1 st2 -> untouched st2 st3 -> untouched st1 st3.
Proof. intros (H1 & H2 & H3) (K1 & K2 & K3). repeat split; try congruence. lia. Qed.

Lemma quiet_untouched (st st' : State) : quiet st st' -> untouched st st'.
Proof. intros (H1 & H2 & H3). repeat split; try assumption. lia. Qed.

(** A computation whose every step is quiet leaves the cache and the
    results as they were when it is run against an upstream. *)
Lemma quiet_exec {A : Type} (QR : A -> State -> Prop) (QT : string -> State -> Prop)
  (up : Upstream) (p : async A) (st : State) :
  holds quiet anything QR QT p st -> untouched st (snd (exec up p st)).
Proof.
  revert st. induction p as [a|m| |k IH|g k IH|rq k IH|k IH]; intros st H; cbn in *.
  - apply untouched_refl.
  - apply untouched_refl.
  - apply untouched_refl.
  - apply IH, H.
  - destruct H as [Hg H]. eapply untouched_trans; [apply quiet_untouched, Hg|apply IH, H].
  - destruct H as [Hg H].
    eapply untouched_trans; [|apply IH, H; exact I].
    destruct Hg as (H1 & H2 & H3). repeat split; cbn; try assumption. lia.
  - apply IH, H. exact I.
Qed.

(** X6: whatever the upstream answers and however it ends, a call of
    [fetchQuote] leaves the cache and the [results] object as they were;
    only the routes write to the cache. *)
Theorem fetchQuote_frame (up : Upstream) (budget : nat) (symbol : string) (st : State) :
  results (snd (exec up (fetchQuote budget symbol) st)) = results st
  /\ cache (snd (exec up (fetchQuote budget symbol) st)) = cache st
  /\ clock st <= clock (snd (exec up (fetchQuote budget symbol) st)).
Proof. apply (quiet_exec whatever whatever), fetchQuote_quiet. Qed.

(** ** The history fetcher: request, failures, frame *)

Lemma starts_with_cacheKey (symbol range : string) :
  starts_with "chart_" (cacheKey symbol range) = true.
Proof. reflexivity. Qed.

(** X7: on a cache miss with a token in the store, [fetchHistory] sends one
    chart request, for the range as given and the interval 5m for [1d], 15m
    for [5d] and 1d for any other range.  Any status that is not a success,
    401 and 403 included, ends the call with [Yahoo Chart API error <status>]:
    there is no re-acquisition and no retry.  A network failure and an
    unreadable body are thrown with their own message.  In these cases
    nothing is cached and the token is the one found. *)
Theorem fetchHistory_failures (up : Upstream) (symbol range : string) (st : State) :
  token_present st ->
  cache_get (cacheKey symbol range) st = None ->
  let rq := GetChart symbol range (interval_of range) (crumb st) (cookieStr st) in
  let st1 := tick (elapsed (up (sent st) rq)) (send rq st) in
  (forall m, reply (up (sent st) rq) = NetworkError m ->
             exec up (fetchHistory symbol range) st = (Threw m, st1))
  /\ (forall r, reply (up (sent st) rq) = Arrived r -> ok r = false ->
                exec up (fetchHistory symbol range) st
                = (Threw ("Yahoo Chart API error " +:+ pretty (status r)), st1))
  /\ (forall r m, reply (up (sent st) rq) = Arrived r -> ok r = true -> json r = inl m ->
                  exec up (fetchHistory symbol range) st = (Threw m, st1))
  /\ sent st1 = sent st ++ [rq] /\ cache st1 = cache st
  /\ crumb st1 = crumb st /\ cookieStr st1 = cookieStr st
  /\ (range = "1d" -> interval_of range = "5m")
  /\ (range = "5d" -> interval_of range = "15m")
  /\ (range <> "1d" -> range <> "5d" -> interval_of range = "1d").
Proof.
  intros Hpre Hmiss rq st1.
  pose proof (exec_fetchHistory_miss up symbol range st Hmiss) as E.
  rewrite (exec_ensureToken_present _ _ Hpre) in E. cbv zeta in E. fold rq st1 in E.
  repeat split.
  - intros m Hm. rewrite E, Hm. reflexivity.
  - intros r Hr Hok. rewrite E, Hr, Hok. reflexivity.
  - intros r m Hr Hok Hj. rewrite E, Hr, Hok, Hj. reflexivity.
  - intros ->. reflexivity.
  - intros ->. reflexivity.
  - intros H1 H2. unfold interval_of.
    apply String.eqb_neq in H1, H2. rewrite H1, H2. reflexivity.
Qed.

Lemma fetchHistory_failures_witness :
  exec always_unauthorized (fetchHistory "AAPL" "1mo") warm_state
  = (Threw "Yahoo Chart API error 401",
     tick 20 (send (GetChart "AAPL" "1mo" "1d" (Some "c1") (Some "A=1")) warm_state)).
Proof.
  pose proof (fetchHistory_failures always_unauthorized "AAPL" "1mo" warm_state
                ltac:(split; reflexivity) ltac:(reflexivity)) as H.
  cbv zeta in H. destruct H as (_ & H & _).
  apply (H (bare 401)); reflexivity.
Defined.

Lemma starts_with_ne (p k s : string) :
  starts_with p k = false -> starts_with p s = true -> k <> s.
Proof. intros Hk Hs ->. congruence. Qed.

(** X8: however it ends, a call of [fetchHistory] leaves the [results]
    object alone and changes no cache entry but the one under its own key;
    in particular the entry of any key that does not start with [chart_]
    (the quote of an ordinary symbol) is the one found.  A call that does not
    return leaves the whole cache as it was. *)
Theorem fetchHistory_frame (up : Upstream) (symbol range : string) (st : State) :
  results (snd (exec up (fetchHistory symbol range) st)) = results st
  /\ (forall k, k <> cacheKey symbol range ->
        cache (snd (exec up (fetchHistory symbol range) st)) !! k = cache st !! k)
  /\ (forall k, starts_with "chart_" k = false ->
        cache (snd (exec up (fetchHistory symbol range) st)) !! k = cache st !! k)
  /\ ((forall v, fst (exec up (fetchHistory symbol range) st) <> Returned v) ->
      cache (snd (exec up (fetchHistory symbol range) st)) = cache st).
Proof.
  assert (H : results (snd (exec up (fetchHistory symbol range) st)) = results st
    /\ (forall k, k <> cacheKey symbol range ->
          cache (snd (exec up (fetchHistory symbol range) st)) !! k = cache st !! k)
    /\ ((forall v, fst (exec up (fetchHistory symbol range) st) <> Returned v) ->
        cache (snd (exec up (fetchHistory symbol range) st)) = cache st)).
  { destruct (cache_get (cacheKey symbol range) st) as [v|] eqn:Hget.
    - assert (E : exec up (fetchHistory symbol range) st = (Returned v, st)).
      { unfold fetchHistory. cbn [bind get_state exec]. rewrite Hget. reflexivity. }
      rewrite E. cbn. auto.
    - rewrite (exec_fetchHistory_miss _ _ _ _ Hget).
      pose proof (quiet_exec whatever whatever up ensureToken st (ensureToken_quiet st))
        as (Hr & Hc & _).
      assert (Hsame : forall st1 : State,
                results st1 = results st -> cache st1 = cache st ->
                results st1 = results st
                /\ (forall k, k <> cacheKey symbol range -> cache st1 !! k = cache st !! k)
                /\ (True -> cache st1 = cache st)).
      { intros s1 Hr1 Hc1. rewrite Hc1. auto. }
      destruct (exec up ensureToken st) as [[[]|m|] st1]; cbn [fst snd] in *;
        try solve [destruct (Hsame st1 Hr Hc) as (K1 & K2 & K3); auto].
      cbv zeta.
      destruct (reply (up (sent st1) _)) as [m|resp]; cbn [fst snd tick send results cache];
        [solve [destruct (Hsame st1 Hr Hc) as (K1 & K2 & K3); auto]|].
      destruct (negb (ok resp)); cbn [fst snd tick send results cache];
        [solve [destruct (Hsame st1 Hr Hc) as (K1 & K2 & K3); auto]|].
      destruct (json resp) as [m|c]; cbn [fst snd tick send results cache];
        [solve [destruct (Hsame st1 Hr Hc) as (K1 & K2 & K3); auto]|].
      cbn [tick send results cache cache_set].
      split; [exact Hr|]. split.
      + intros k Hk. rewrite lookup_insert_ne by congruence. rewrite Hc. reflexivity.
      + intros Hno. exfalso. eapply Hno. reflexivity. }
  destruct H as (H1 & H2 & H3). repeat split; try assumption.
  intros k Hk. apply H2. eapply starts_with_ne; [exact Hk|apply starts_with_cacheKey].
Qed.

(** ** The quote route *)

Lemma exec_quoteHandler_miss (up : Upstream) (budget : nat) (symbol : string) (st : State) :
  cache_get symbol st = None ->
  exec up (quoteHandler budget symbol) st =
  match exec up (fetchQuote budget symbol) st with
  | (Returned q, st1) =>
      (Returned {| code := 200; payload := JsonValue (CQuote q) |},
       cache_set symbol (CQuote q) stdTTL st1)
  | (Threw m, st1) => (Returned {| code := 500; payload := JsonError m |}, st1)
  | (Pending, st1) => (Pending, st1)
  end.
Proof.
  intros Hmiss. unfold quoteHandler. cbn [bind get_state exec]. rewrite Hmiss.
  rewrite exec_try_catch, exec_bind, exec_await.
  destruct (exec up (fetchQuote budget symbol) st) as [[q|m|] st1]; reflexivity.
Qed.

Lemma cache_get_after_set (key : string) (v : Cached) (ttl : Z) (st : State) (ms : N) :
  0 <= ttl ->
  cache_get key (tick ms (cache_set key v ttl st))
  = if Z.of_N ms <=? ttl * 1000 then Some v else None.
Proof.
  intros Httl. unfold cache_get. cbn [cache clock tick cache_set].
  rewrite lookup_insert_eq. cbn [ce_expires ce_value].
  destruct (Z.leb_spec (clock st + Z.of_N ms) (clock st + ttl * 1000)),
           (Z.leb_spec (Z.of_N ms) (ttl * 1000)); try reflexivity; lia.
Qed.

(** X9: the quote route never lets an error escape.  When it answers, it
    answers 200 with a value that the cache now holds for the symbol, or 500
    with the message [fetchQuote] threw, and then the cache is the one found:
    a failure is not cached.  The [results] object is not touched. *)
Theorem quote_route_answers (up : Upstream) (budget : nat) (symbol : string) (st : State) :
  match exec up (quoteHandler budget symbol) st with
  | (Returned resp, st') =>
      results st' = results st
      /\ ((code resp = 200%N
           /\ exists v, payload resp = JsonValue v /\ cache_get symbol st' = Some v)
          \/ (code resp = 500%N
              /\ (exists m, payload resp = JsonError m
                            /\ fst (exec up (fetchQuote budget symbol) st) = Threw m)
              /\ cache st' = cache st))
  | (Threw _, _) => False
  | (Pending, _) => fst (exec up (fetchQuote budget symbol) st) = Pending
  end.
Proof.
  destruct (cache_get symbol st) as [v|] eqn:Hget.
  - assert (E : exec up (quoteHandler budget symbol) st
                = (Returned {| code := 200; payload := JsonValue v |}, st)).
    { unfold quoteHandler. cbn [bind get_state exec]. rewrite Hget. reflexivity. }
    rewrite E. split; [reflexivity|]. left. split; [reflexivity|]. eauto.
  - rewrite (exec_quoteHandler_miss _ _ _ _ Hget).
    pose proof (quiet_exec whatever whatever up _ st (fetchQuote_quiet budget symbol st))
      as (Hr & Hc & _).
    destruct (exec up (fetchQuote budget symbol) st) as [[q|m|] st1]; cbn [fst snd] in *.
    + split; [exact Hr|]. left. split; [reflexivity|]. exists (CQuote q).
      split; [reflexivity|].
      pose proof (cache_get_after_set symbol (CQuote q) stdTTL st1 0 ltac:(unfold stdTTL; lia))
        as H.
      cbn in H. replace (tick 0 (cache_set symbol (CQuote q) stdTTL st1))
        with (cache_set symbol (CQuote q) stdTTL st1) in H; [exact H|].
      unfold tick, cache_set. cbn. f_equal. lia.
    + split; [exact Hr|]. right. split; [reflexivity|]. split; [eauto|exact Hc].
    + reflexivity.
Qed.

(** X10: the quote route is read-through.  Once it has answered 200 after a
    cache miss, the same request made within the next 30 seconds gets the same
    response in the state it finds, so without a handshake or a request,
    whatever the upstream would have answered; after 30 seconds the cache no
    longer answers for the symbol. *)
Theorem quote_route_read_through (up up' : Upstream) (budget budget' : nat)
  (symbol : string) (st st' : State) (resp : HttpResponse) (ms : N) :
  cache_get symbol st = None ->
  exec up (quoteHandler budget symbol) st = (Returned resp, st') ->
  code resp = 200%N ->
  (Z.of_N ms <= 30000 ->
   exec up' (quoteHandler budget' symbol) (tick ms st') = (Returned resp, tick ms st'))
  /\ (30000 < Z.of_N ms -> cache_get symbol (tick ms st') = None).
Proof.
  intros Hmiss H Hcode. rewrite (exec_quoteHandler_miss _ _ _ _ Hmiss) in H.
  destruct (exec up (fetchQuote budget symbol) st) as [[q|m|] st1]; try discriminate H.
  2: { injection H as <- _. discriminate Hcode. }
  injection H as <- <-.
  pose proof (cache_get_after_set symbol (CQuote q) stdTTL st1 ms ltac:(unfold stdTTL; lia))
    as Hget.
  change (stdTTL * 1000) with 30000 in Hget. split; intros Hms.
  - destruct (Z.leb_spec (Z.of_N ms) 30000); [|lia].
    unfold quoteHandler. cbn [bind get_state exec]. rewrite Hget. reflexivity.
  - destruct (Z.leb_spec (Z.of_N ms) 30000); [lia|exact Hget].
Qed.

(** Served once by a healthy upstream, the quote is served again 29.999
    seconds later with the network down, and is gone a millisecond after the
    thirtieth second. *)
Lemma quote_route_read_through_witness :
  let first := exec healthy (quoteHandler 1 "AAPL") warm_state in
  exec offline (quoteHandler 0 "AAPL") (tick 29999 (snd first))
  = (Returned {| code := 200; payload := JsonValue (CQuote (makeQuote sample_chart 1020)) |},
     tick 29999 (snd first))
  /\ cache_get "AAPL" (tick 30001 (snd first)) = None.
Proof.
  cbv zeta. split.
  - apply (quote_route_read_through healthy offline 1 0 "AAPL" warm_state
             (snd (exec healthy (quoteHandler 1 "AAPL") warm_state))
             {| code := 200; payload := JsonValue (CQuote (makeQuote sample_chart 1020)) |}
             29999);
      [reflexivity|vm_compute; reflexivity|reflexivity|vm_compute; discriminate].
  - apply (quote_route_read_through healthy offline 1 0 "AAPL" warm_state
             (snd (exec healthy (quoteHandler 1 "AAPL") warm_state))
             {| code := 200; payload := JsonValue (CQuote (makeQuote sample_chart 1020)) |}
             30001);
      [reflexivity|vm_compute; reflexivity|reflexivity|vm_compute; reflexivity].
Defined.

(** ** The history route *)

Lemma fetchHistory_outcome (up : Upstream) (symbol range : string) (st : State) :
  match exec up (fetchHistory symbol range) st with
  | (Returned v, st') => cache_get (cacheKey symbol range) st' = Some v
  | (Threw m, st') => cache st' = cache st
  | (Pending, _) => False
  end.
Proof.
  destruct (cache_get (cacheKey symbol range) st) as [v|] eqn:Hget.
  - assert (E : exec up (fetchHistory symbol range) st = (Returned v, st)).
    { unfold fetchHistory. cbn [bind get_state exec]. rewrite Hget. reflexivity. }
    rewrite E. exact Hget.
  - rewrite (exec_fetchHistory_miss _ _ _ _ Hget).
    pose proof (ensureToken_cache up st) as Hc.
    assert (Hnp : fst (exec up ensureToken st) <> Pending).
    { rewrite exec_ensureToken.
      destruct (negb (JS.truthy_str (crumb st)) || negb (JS.truthy_str (cookieStr st)));
        [|discriminate].
      destruct (initCrumb_run_returns up st) as [b Hb]. rewrite <- exec_initCrumb in Hb.
      destruct (exec up initCrumb st) as [o s1]. cbn in Hb. subst o.
      destruct b; discriminate. }
    destruct (exec up ensureToken st) as [[[]|m|] st1]; cbn [fst snd] in *;
      [|exact Hc|congruence].
    cbv zeta. destruct (reply (up (sent st1) _)) as [m|resp]; [exact Hc|].
    destruct (negb (ok resp)); [exact Hc|].
    destruct (json resp) as [m|c]; [exact Hc|].
    pose proof (cache_get_after_set (cacheKey symbol range)
      (CHistory (zipHistory (default [] (chart_timestamp c))
                            (default [] (bar_close (quote0 c))))) 60
      (tick (elapsed (up (sent st1)
         (GetChart symbol range (interval_of range) (crumb st1) (cookieStr st1))))
         (send (GetChart symbol range (interval_of range) (crumb st1) (cookieStr st1)) st1))
      0 ltac:(lia)) as H.
    cbn [Z.of_N Z.leb Z.compare Z.mul] in H.
    match type of H with cache_get _ ?s = _ =>
      match goal with |- cache_get _ ?s' = _ => replace s' with s; [exact H|] end end.
    unfold tick, cache_set, send. cbn. f_equal. lia.
Qed.

(** X11: the history route always answers, and never lets an error escape.
    An omitted or empty [range] is served as [1d].  The answer is 200 with a
    value that the cache now holds under the key of the symbol and range, or
    500 with the message [fetchHistory] threw, and then the cache is the one
    found. *)
Theorem history_route_answers (up : Upstream) (symbol : string) (range : option string)
  (st : State) :
  let r := match range with Some (String a s) => String a s | _ => "1d" end in
  exists resp,
    fst (exec up (historyHandler symbol range) st) = Returned resp
    /\ ((code resp = 200%N
         /\ exists v, payload resp = JsonValue v
                      /\ cache_get (cacheKey symbol r)
                           (snd (exec up (historyHandler symbol range) st)) = Some v)
        \/ (code resp = 500%N
            /\ (exists m, payload resp = JsonError m
                          /\ fst (exec up (fetchHistory symbol r) st) = Threw m)
            /\ cache (snd (exec up (historyHandler symbol range) st)) = cache st)).
Proof.
  intros r.
  assert (E : exec up (historyHandler symbol range) st =
    match exec up (fetchHistory symbol r) st with
    | (Returned v, st1) => (Returned {| code := 200; payload := JsonValue v |}, st1)
    | (Threw m, st1) => (Returned {| code := 500; payload := JsonError m |}, st1)
    | (Pending, st1) => (Pending, st1)
    end).
  { unfold historyHandler.
    replace (if JS.truthy_str range then default "1d" range else "1d") with r
      by (subst r; destruct range as [[|a s]|]; reflexivity).
    rewrite exec_try_catch, exec_bind, exec_await.
    destruct (exec up (fetchHistory symbol r) st) as [[v|m|] st1]; reflexivity. }
  rewrite E. pose proof (fetchHistory_outcome up symbol r st) as H.
  destruct (exec up (fetchHistory symbol r) st) as [[v|m|] st1]; cbn [fst snd] in *.
  - eexists. split; [reflexivity|]. left. split; [reflexivity|]. eauto.
  - eexists. split; [reflexivity|]. right. split; [reflexivity|]. split; [eauto|exact H].
  - destruct H.
Qed.

(** ** High, low and open of a record *)

Ltac sf_cases :=
  repeat match goal with
  | |- context [Pos.compare_cont Eq ?x ?y] =>
      change (Pos.compare_cont Eq x y) with (Pos.compare x y)
  | H : context [Pos.compare_cont Eq ?x ?y] |- _ =>
      change (Pos.compare_cont Eq x y) with (Pos.compare x y) in H
  end;
  repeat match goal with
  | |- context [Z.compare ?x ?y] => destruct (Z.compare_spec x y)
  | H : context [Z.compare ?x ?y] |- _ => destruct (Z.compare_spec x y)
  | |- context [Pos.compare ?x ?y] => destruct (Pos.compare_spec x y)
  | H : context [Pos.compare ?x ?y] |- _ => destruct (Pos.compare_spec x y)
  end; cbn in *; subst; try reflexivity; try discriminate; try lia.

Lemma SFleb_trans (a b c : spec_float) :
  SFleb a b = true -> SFleb b c = true -> SFleb a c = true.
Proof.
  unfold SFleb, SFcompare.
  destruct a as [sa|sa| |sa ma ea], b as [sb|sb| |sb mb eb], c as [sc|sc| |sc mc ec];
    try destruct sa; try destruct sb; try destruct sc; cbn;
    try discriminate; try reflexivity; intros H1 H2; sf_cases.
Qed.

Lemma SFltb_false_leb (a x : spec_float) :
  a <> S754_nan -> x <> S754_nan -> SFltb a x = false -> SFleb x a = true.
Proof.
  unfold SFleb, SFltb, SFcompare.
  destruct a as [sa|sa| |sa ma ea], x as [sx|sx| |sx mx ex];
    try destruct sa; try destruct sx; cbn;
    try discriminate; try reflexivity; try congruence; intros _ _ H; sf_cases.
Qed.

Lemma SFleb_refl (a : spec_float) : a <> S754_nan -> SFleb a a = true.
Proof.
  unfold SFleb, SFcompare. destruct a as [sa|sa| |sa ma ea]; try destruct sa; cbn;
    try reflexivity; try congruence; intros _; sf_cases.
Qed.

Lemma not_nan_sf (x : float) : PrimFloat.is_nan x = false -> Prim2SF x <> S754_nan.
Proof.
  unfold PrimFloat.is_nan. rewrite FloatAxioms.eqb_spec. intros H E. rewrite E in H.
  discriminate H.
Qed.

Lemma leb_trans (a b c : float) :
  PrimFloat.leb a b = true -> PrimFloat.leb b c = true -> PrimFloat.leb a c = true.
Proof. rewrite !leb_spec. apply SFleb_trans. Qed.

Lemma leb_refl (a : float) : PrimFloat.is_nan a = false -> PrimFloat.leb a a = true.
Proof. intros H. rewrite leb_spec. apply SFleb_refl, not_nan_sf, H. Qed.

Lemma ltb_false_leb (a x : float) :
  PrimFloat.is_nan a = false -> PrimFloat.is_nan x = false ->
  PrimFloat.ltb a x = false -> PrimFloat.leb x a = true.
Proof.
  intros Ha Hx. rewrite ltb_spec, leb_spec. apply SFltb_false_leb; apply not_nan_sf; assumption.
Qed.

Lemma ltb_leb (a x : float) : PrimFloat.ltb a x = true -> PrimFloat.leb a x = true.
Proof.
  rewrite ltb_spec, leb_spec. unfold SFltb, SFleb.
  destruct (SFcompare (Prim2SF a) (Prim2SF x)) as [[| |]|]; congruence.
Qed.

(** The running maximum of numbers that are not [NaN] is not [NaN], bounds
    the start and every number, and is the start or one of the numbers. *)
Lemma foldl_max2 (xs : list float) (acc : float) :
  PrimFloat.is_nan acc = false -> (forall x, x ∈ xs -> PrimFloat.is_nan x = false) ->
  PrimFloat.is_nan (foldl JS.max2 acc xs) = false
  /\ PrimFloat.leb acc (foldl JS.max2 acc xs) = true
  /\ (forall x, x ∈ xs -> PrimFloat.leb x (foldl JS.max2 acc xs) = true)
  /\ (foldl JS.max2 acc xs = acc \/ foldl JS.max2 acc xs ∈ xs).
Proof.
  revert acc. induction xs as [|x xs IH]; intros acc Hacc Hxs; cbn [foldl].
  - split; [exact Hacc|]. split; [apply leb_refl, Hacc|]. split; [|left; reflexivity].
    intros x Hx. inversion Hx.
  - assert (Hx : PrimFloat.is_nan x = false) by (apply Hxs; left).
    assert (Hm : PrimFloat.is_nan (JS.max2 acc x) = false
                 /\ PrimFloat.leb acc (JS.max2 acc x) = true
                 /\ PrimFloat.leb x (JS.max2 acc x) = true
                 /\ (JS.max2 acc x = acc \/ JS.max2 acc x = x)).
    { unfold JS.max2. rewrite Hacc, Hx. cbn [orb].
      destruct (PrimFloat.ltb acc x) eqn:Hlt.
      - split; [exact Hx|]. split; [apply ltb_leb, Hlt|]. split; [apply leb_refl, Hx|auto].
      - split; [exact Hacc|]. split; [apply leb_refl, Hacc|].
        split; [apply ltb_false_leb; assumption|auto]. }
    destruct Hm as (Hn & Ha & Hxm & Hor).
    destruct (IH (JS.max2 acc x) Hn) as (Hn' & Ha' & Hall & Hor').
    { intros y Hy. apply Hxs. right. exact Hy. }
    split; [exact Hn'|]. split; [eapply leb_trans; eassumption|]. split.
    + intros y Hy. apply elem_of_cons in Hy as [->|Hy]; [|apply Hall, Hy].
      eapply leb_trans; eassumption.
    + destruct Hor' as [E|Hin]; [|right; right; exact Hin].
      rewrite E. destruct Hor as [->| ->]; [left; reflexivity|right; left].
Qed.

Lemma foldl_min2 (xs : list float) (acc : float) :
  PrimFloat.is_nan acc = false -> (forall x, x ∈ xs -> PrimFloat.is_nan x = false) ->
  PrimFloat.is_nan (foldl JS.min2 acc xs) = false
  /\ PrimFloat.leb (foldl JS.min2 acc xs) acc = true
  /\ (forall x, x ∈ xs -> PrimFloat.leb (foldl JS.min2 acc xs) x = true)
  /\ (foldl JS.min2 acc xs = acc \/ foldl JS.min2 acc xs ∈ xs).
Proof.
  revert acc. induction xs as [|x xs IH]; intros acc Hacc Hxs; cbn [foldl].
  - split; [exact Hacc|]. split; [apply leb_refl, Hacc|]. split; [|left; reflexivity].
    intros x Hx. inversion Hx.
  - assert (Hx : PrimFloat.is_nan x = false) by (apply Hxs; left).
    assert (Hm : PrimFloat.is_nan (JS.min2 acc x) = false
                 /\ PrimFloat.leb (JS.min2 acc x) acc = true
                 /\ PrimFloat.leb (JS.min2 acc x) x = true
                 /\ (JS.min2 acc x = acc \/ JS.min2 acc x = x)).
    { unfold JS.min2. rewrite Hacc, Hx. cbn [orb].
      destruct (PrimFloat.ltb x acc) eqn:Hlt.
      - split; [exact Hx|]. split; [apply ltb_leb, Hlt|]. split; [apply leb_refl, Hx|auto].
      - split; [exact Hacc|]. split; [apply leb_refl, Hacc|].
        split; [apply ltb_false_leb; assumption|auto]. }
    destruct Hm as (Hn & Ha & Hxm & Hor).
    destruct (IH (JS.min2 acc x) Hn) as (Hn' & Ha' & Hall & Hor').
    { intros y Hy. apply Hxs. right. exact Hy. }
    split; [exact Hn'|]. split; [eapply leb_trans; eassumption|]. split.
    + intros y Hy. apply elem_of_cons in Hy as [->|Hy]; [|apply Hall, Hy].
      eapply leb_trans; eassumption.
    + destruct Hor' as [E|Hin]; [|right; right; exact Hin].
      rewrite E. destruct Hor as [->| ->]; [left; reflexivity|right; left].
Qed.

Lemma truthy_number (v : JS.value) :
  JS.truthy v = true -> exists x, v = JS.Number x /\ PrimFloat.is_nan x = false.
Proof.
  destruct v as [| |x]; cbn; try discriminate. intros H. exists x. split; [reflexivity|].
  destruct (PrimFloat.is_nan x); [|reflexivity].
  rewrite orb_true_r in H. discriminate H.
Qed.

Lemma truthy_numbers (vs : list JS.value) (x : float) :
  x ∈ JS.to_number <$> filter (fun v => JS.truthy v = true) vs ->
  PrimFloat.is_nan x = false
  /\ exists v, v ∈ vs /\ JS.truthy v = true /\ JS.to_number v = x.
Proof.
  intros H. apply list_elem_of_fmap in H as (v & -> & Hv).
  apply list_elem_of_filter in Hv as [Ht Hv].
  destruct (truthy_number v Ht) as (y & -> & Hy). cbn. split; [exact Hy|].
  exists (JS.Number y). auto.
Qed.

(** X12: [high] is the day high of the payload when that is truthy.
    Otherwise, when the payload has no array of bar highs, it is the price;
    and when it has one, it is the greatest of its truthy elements: a number
    that bounds every one of them and is one of them, or [-Infinity] when the
    array has no truthy element (not the price).  [low] is the same with the
    day low, the least of the truthy bar lows, and [+Infinity]. *)
Theorem makeQuote_high_low (c : Chart) (t : Z) :
  (JS.truthy (regularMarketDayHigh (meta c)) = true ->
   high (makeQuote c t) = regularMarketDayHigh (meta c))
  /\ (JS.truthy (regularMarketDayHigh (meta c)) = false -> bar_high (quote0 c) = None ->
      high (makeQuote c t) = regularMarketPrice (meta c))
  /\ (JS.truthy (regularMarketDayHigh (meta c)) = false ->
      forall hs, bar_high (quote0 c) = Some hs ->
      exists h, high (makeQuote c t) = JS.Number h
        /\ (forall v, v ∈ hs -> JS.truthy v = true -> PrimFloat.leb (JS.to_number v) h = true)
        /\ (h = PrimFloat.neg_infinity
            \/ exists v, v ∈ hs /\ JS.truthy v = true /\ JS.to_number v = h)
        /\ ((forall v, v ∈ hs -> JS.truthy v = false) -> h = PrimFloat.neg_infinity))
  /\ (JS.truthy (regularMarketDayLow (meta c)) = true ->
      low (makeQuote c t) = regularMarketDayLow (meta c))
  /\ (JS.truthy (regularMarketDayLow (meta c)) = false -> bar_low (quote0 c) = None ->
      low (makeQuote c t) = regularMarketPrice (meta c))
  /\ (JS.truthy (regularMarketDayLow (meta c)) = false ->
      forall ls, bar_low (quote0 c) = Some ls ->
      exists l, low (makeQuote c t) = JS.Number l
        /\ (forall v, v ∈ ls -> JS.truthy v = true -> PrimFloat.leb l (JS.to_number v) = true)
        /\ (l = PrimFloat.infinity
            \/ exists v, v ∈ ls /\ JS.truthy v = true /\ JS.to_number v = l)
        /\ ((forall v, v ∈ ls -> JS.truthy v = false) -> l = PrimFloat.infinity)).
Proof.
  split; [|split; [|split; [|split; [|split]]]].
  - intros H. cbn. unfold JS.or. rewrite H. reflexivity.
  - intros H Hb. cbn. unfold JS.or. rewrite H, Hb. reflexivity.
  - intros H hs Hb. cbn. unfold JS.or. rewrite H, Hb. eexists. split; [reflexivity|].
    unfold JS.math_max.
    destruct (foldl_max2 (JS.to_number <$> filter (fun v => JS.truthy v = true) hs)
                PrimFloat.neg_infinity eq_refl) as (_ & _ & Hall & Hor).
    { intros x Hx. apply (truthy_numbers hs x Hx). }
    split; [|split].
    + intros v Hv Ht. apply Hall. apply list_elem_of_fmap. exists v. split; [reflexivity|].
      apply list_elem_of_filter. auto.
    + destruct Hor as [E|Hin]; [left; exact E|right].
      apply (truthy_numbers hs _ Hin).
    + intros Hnone. destruct Hor as [E|Hin]; [exact E|].
      destruct (truthy_numbers hs _ Hin) as (_ & v & Hv & Ht & _).
      rewrite (Hnone v Hv) in Ht. discriminate Ht.
  - intros H. cbn. unfold JS.or. rewrite H. reflexivity.
  - intros H Hb. cbn. unfold JS.or. rewrite H, Hb. reflexivity.
  - intros H ls Hb. cbn. unfold JS.or. rewrite H, Hb. eexists. split; [reflexivity|].
    unfold JS.math_min.
    destruct (foldl_min2 (JS.to_number <$> filter (fun v => JS.truthy v = true) ls)
                PrimFloat.infinity eq_refl) as (_ & _ & Hall & Hor).
    { intros x Hx. apply (truthy_numbers ls x Hx). }
    split; [|split].
    + intros v Hv Ht. apply Hall. apply list_elem_of_fmap. exists v. split; [reflexivity|].
      apply list_elem_of_filter. auto.
    + destruct Hor as [E|Hin]; [left; exact E|right].
      apply (truthy_numbers ls _ Hin).
    + intros Hnone. destruct Hor as [E|Hin]; [exact E|].
      destruct (truthy_numbers ls _ Hin) as (_ & v & Hv & Ht & _).
      rewrite (Hnone v Hv) in Ht. discriminate Ht.
Qed.

Example makeQuote_high_low_values :
  high (makeQuote bars_chart 0) = num 113 /\ low (makeQuote bars_chart 0) = num 98
  /\ high (makeQuote null_bars_chart 0) = JS.Number PrimFloat.neg_infinity
  /\ low (makeQuote null_bars_chart 0) = JS.Number PrimFloat.infinity
  /\ open (makeQuote bars_chart 0) = num 101
  /\ open (makeQuote null_bars_chart 0) = JS.Undefined.
Proof. vm_compute. repeat split. Qed.

Lemma find_first_truthy (pre post : list JS.value) (v : JS.value) :
  (forall u, u ∈ pre -> JS.truthy u = false) -> JS.truthy v = true ->
  JS.find_truthy (pre ++ v :: post) = v.
Proof.
  intros Hpre Hv. unfold JS.find_truthy. induction pre as [|u pre IH]; cbn.
  - rewrite Hv. reflexivity.
  - rewrite (Hpre u) by left. apply IH. intros w Hw. apply Hpre. right. exact Hw.
Qed.

Lemma find_no_truthy (vs : list JS.value) :
  (forall u, u ∈ vs -> JS.truthy u = false) -> JS.find_truthy vs = JS.Undefined.
Proof.
  intros H. unfold JS.find_truthy. induction vs as [|u vs IH]; cbn; [reflexivity|].
  rewrite (H u) by left. apply IH. intros w Hw. apply H. right. exact Hw.
Qed.

(** X13: [open] is the price only when the payload has no array of bar
    opens.  When it has one, [open] is its first truthy element, and it is
    [undefined], not the price, when the array has no truthy element. *)
Theorem makeQuote_open (c : Chart) (t : Z) :
  (bar_open (quote0 c) = None -> open (makeQuote c t) = regularMarketPrice (meta c))
  /\ (forall pre v post,
        bar_open (quote0 c) = Some (pre ++ v :: post) ->
        (forall u, u ∈ pre -> JS.truthy u = false) -> JS.truthy v = true ->
        open (makeQuote c t) = v)
  /\ (forall os,
        bar_open (quote0 c) = Some os -> (forall u, u ∈ os -> JS.truthy u = false) ->
        open (makeQuote c t) = JS.Undefined).
Proof.
  split; [|split].
  - intros H. cbn. rewrite H. reflexivity.
  - intros pre v post H Hpre Hv. cbn. rewrite H. apply find_first_truthy; assumption.
  - intros os H Hos. cbn. rewrite H. apply find_no_truthy, Hos.
Qed.

(** ** The points of a history *)

(** X14: the times of a history are timestamps of the payload, in their
    order; a point of the history is exactly a timestamp paired with the
    element of the close array at the same index ([undefined] past its end),
    kept unless that element is [null]. *)
Theorem zipHistory_points (timestamps prices : list JS.value) :
  time <$> zipHistory timestamps prices `sublist_of` timestamps
  /\ (length (zipHistory timestamps prices) <= length timestamps)%nat
  /\ (forall h,
        h ∈ zipHistory timestamps prices <->
        exists i t, timestamps !! i = Some t
                    /\ h = {| time := t; hp_price := default JS.Undefined (prices !! i) |}
                    /\ default JS.Undefined (prices !! i) <> JS.Null).
Proof.
  unfold zipHistory. split; [|split].
  - etransitivity; [apply fmap_sublist, sublist_filter|].
    rewrite fmap_imap.
    rewrite (imap_ext _ (const id)) by reflexivity.
    rewrite imap_const, list_fmap_id. reflexivity.
  - etransitivity; [apply length_filter|]. rewrite length_imap. reflexivity.
  - intros h. rewrite list_elem_of_filter, elem_of_lookup_imap. split.
    + intros (Hnn & i & t & -> & Hi). exists i, t. split; [exact Hi|]. split; [reflexivity|].
      cbn in Hnn. intros E. rewrite E in Hnn. discriminate Hnn.
    + intros (i & t & Hi & -> & Hnn). split; [|eauto].
      cbn. destruct (default JS.Undefined (prices !! i)); try reflexivity. congruence.
Qed.

(** ** The start of a batch *)

Lemma settle_batchTask_present (budget : nat) (s : string) (st : State) :
  token_present st -> cache_get s st = None ->
  exists k,
    settle (batchTask (S budget) s) st
    = (Await (GetChart s "1d" "1d" (crumb st) (cookieStr st)) k,
       send (GetChart s "1d" "1d" (crumb st) (cookieStr st)) st).
Proof.
  intros [Hc Hk] Hmiss. unfold batchTask, batchBody.
  cbn [bind get_state try_catch settle]. rewrite Hmiss.
  unfold await. cbn [fetchQuote]. unfold ensureToken.
  cbn [bind get_state try_catch settle]. rewrite Hc, Hk. cbn. eexists. reflexivity.
Qed.

Lemma settle_batchTask_absent (budget : nat) (s : string) (st : State) :
  JS.truthy_str (crumb st) && JS.truthy_str (cookieStr st) = false ->
  cache_get s st = None ->
  exists k,
    settle (batchTask (S budget) s) st = (Await GetConsent k, send GetConsent st).
Proof.
  intros Hno Hmiss. unfold batchTask, batchBody.
  cbn [bind get_state try_catch settle]. rewrite Hmiss.
  unfold await. cbn [fetchQuote]. unfold ensureToken.
  cbn [bind get_state try_catch settle].
  replace (negb (JS.truthy_str (crumb st)) || negb (JS.truthy_str (cookieStr st)))
    with true by (destruct (JS.truthy_str (crumb st)), (JS.truthy_str (cookieStr st));
                  cbn in *; congruence).
  cbn. eexists. reflexivity.
Qed.

(** X15: with a token in the store and no listed symbol in the cache, the
    chart requests of a batch of well-formed symbols are all sent before any
    reply is handled: one per listed symbol, repeated symbols included, in
    the order of the list, all with the token found.  Every task is then
    suspended, and nothing else in the state has changed.  (The symbols are
    well-formed text, as every string of a request is: for a symbol with a
    lone surrogate [encodeURIComponent] throws at line 46 and the task of
    that symbol sends no request.) *)
Theorem batch_fans_out (budget : nat) (symbols : list string) (st : State) :
  token_present st ->
  (forall s, s ∈ symbols -> cache_get s st = None) ->
  let started := spawn (batchTask (S budget) <$> symbols) st in
  sent (snd started)
  = sent st ++ ((fun s => GetChart s "1d" "1d" (crumb st) (cookieStr st)) <$> symbols)
  /\ length (fst started) = length symbols
  /\ forallb suspended (fst started) = true
  /\ crumb (snd started) = crumb st /\ cookieStr (snd started) = cookieStr st
  /\ cache (snd started) = cache st /\ results (snd started) = results st
  /\ clock (snd started) = clock st.
Proof.
  intros Hpre Hmiss. cbv zeta. revert st Hpre Hmiss.
  induction symbols as [|s symbols IH]; intros st Hpre Hmiss.
  - cbn. rewrite app_nil_r. repeat split.
  - cbn [fmap list_fmap spawn].
    destruct (settle_batchTask_present budget s st Hpre) as [k ->]; [apply Hmiss; left|].
    set (rq := GetChart s "1d" "1d" (crumb st) (cookieStr st)).
    change (list_fmap string (async unit) (batchTask (S budget)) symbols)
      with (batchTask (S budget) <$> symbols).
    destruct (IH (send rq st)) as (H1 & H2 & H3 & H4 & H5 & H6 & H7 & H8).
    { exact Hpre. }
    { intros s' Hs'. apply (Hmiss s'). right. exact Hs'. }
    destruct (spawn (batchTask (S budget) <$> symbols) (send rq st)) as [pool st2].
    cbn [fst snd] in *. rewrite H1. cbn [sent send crumb cookieStr] in *.
    rewrite <- app_assoc. cbn [length forallb suspended andb].
    repeat split; try assumption. rewrite H2. reflexivity.
Qed.

Lemma batch_fans_out_witness :
  let started := spawn (batchTask 1 <$> ["GOOD"; "BAD"; "GOOD"]) warm_state in
  sent (snd started)
  = sent warm_state
    ++ ((fun s => GetChart s "1d" "1d" (crumb warm_state) (cookieStr warm_state))
          <$> ["GOOD"; "BAD"; "GOOD"])
  /\ length (fst started) = length ["GOOD"; "BAD"; "GOOD"]
  /\ forallb suspended (fst started) = true
  /\ crumb (snd started) = crumb warm_state /\ cookieStr (snd started) = cookieStr warm_state
  /\ cache (snd started) = cache warm_state /\ results (snd started) = results warm_state
  /\ clock (snd started) = clock warm_state.
Proof.
  apply (batch_fans_out 0 ["GOOD"; "BAD"; "GOOD"] warm_state).
  - split; reflexivity.
  - intros s _. unfold cache_get. cbn. rewrite lookup_empty. reflexivity.
Defined.

(** X16: when the store holds no token and no listed symbol is in the
    cache, every task of the batch starts a handshake of its own: the batch
    sends one consent request per listed symbol before any reply is handled.
    The handshake is not shared between the tasks. *)
Theorem batch_handshakes (budget : nat) (symbols : list string) (st : State) :
  JS.truthy_str (crumb st) && JS.truthy_str (cookieStr st) = false ->
  (forall s, s ∈ symbols -> cache_get s st = None) ->
  let started := spawn (batchTask (S budget) <$> symbols) st in
  sent (snd started) = sent st ++ ((fun _ => GetConsent) <$> symbols)
  /\ acquisitions (sent (snd started)) = (acquisitions (sent st) + length symbols)%nat
  /\ forallb suspended (fst started) = true
  /\ crumb (snd started) = crumb st /\ cookieStr (snd started) = cookieStr st.
Proof.
  intros Hno Hmiss. cbv zeta. revert st Hno Hmiss.
  induction symbols as [|s symbols IH]; intros st Hno Hmiss.
  - cbn. rewrite app_nil_r. repeat split. lia.
  - cbn [fmap list_fmap spawn].
    destruct (settle_batchTask_absent budget s st Hno) as [k ->]; [apply Hmiss; left|].
    change (list_fmap string (async unit) (batchTask (S budget)) symbols)
      with (batchTask (S budget) <$> symbols).
    destruct (IH (send GetConsent st)) as (H1 & H2 & H3 & H4 & H5).
    { exact Hno. }
    { intros s' Hs'. apply (Hmiss s'). right. exact Hs'. }
    destruct (spawn (batchTask (S budget) <$> symbols) (send GetConsent st)) as [pool st2].
    cbn [fst snd] in *. rewrite H2, H1. cbn [sent send crumb cookieStr] in *.
    rewrite <- app_assoc, acquisitions_app. cbn [length forallb suspended andb].
    repeat split; try assumption. cbn. lia.
Qed.

Lemma batch_handshakes_witness :
  let started := spawn (batchTask 1 <$> ["GOOD"; "BAD"]) empty_state in
  sent (snd started) = sent empty_state ++ ((fun _ => GetConsent) <$> ["GOOD"; "BAD"])
  /\ acquisitions (sent (snd started))
     = (acquisitions (sent empty_state) + length ["GOOD"; "BAD"])%nat
  /\ forallb suspended (fst started) = true
  /\ crumb (snd started) = crumb empty_state
  /\ cookieStr (snd started) = cookieStr empty_state.
Proof.
  apply (batch_handshakes 0 ["GOOD"; "BAD"] empty_state).
  - reflexivity.
  - intros s _. unfold cache_get. cbn. rewrite lookup_empty. reflexivity.
Defined.

(** ** Lazy acquisition *)

(** X17: without a token in the store, a handshake that succeeds is
    followed by the chart request, which carries the crumb and the cookie the
    handshake has just stored (the text of the crumb response and the cookie
    header of the consent response); a served request then gives the
    record.  Three requests were sent: consent, crumb, chart. *)
Theorem fetchQuote_lazy_acquisition (up : Upstream) (budget : nat) (symbol : string)
  (st : State) (r1 r2 r3 : Response) (t : string) (c : Chart) :
  JS.truthy_str (crumb st) && JS.truthy_str (cookieStr st) = false ->
  reply (up (sent st) GetConsent) = Arrived r1 ->
  reply (up (sent st ++ [GetConsent]) (GetCrumb (Some (cookie_header r1)))) = Arrived r2 ->
  ok r2 = true -> text r2 = inr t ->
  let rq := GetChart symbol "1d" "1d" (Some t) (Some (cookie_header r1)) in
  let asked := sent st ++ [GetConsent; GetCrumb (Some (cookie_header r1))] in
  reply (up asked rq) = Arrived r3 -> ok r3 = true -> json r3 = inr c ->
  exists st',
    exec up (fetchQuote (S budget) symbol) st = (Returned (makeQuote c (clock st')), st')
    /\ sent st' = asked ++ [rq]
    /\ crumb st' = Some t /\ cookieStr st' = Some (cookie_header r1)
    /\ cache st' = cache st.
Proof.
  intros Hno Hr1 Hr2 Hok2 Ht rq asked Hr3 Hok3 Hj.
  rewrite exec_fetchQuote_S, exec_ensureToken.
  replace (negb (JS.truthy_str (crumb st)) || negb (JS.truthy_str (cookieStr st)))
    with true by (destruct (JS.truthy_str (crumb st)), (JS.truthy_str (cookieStr st));
                  cbn in *; congruence).
  rewrite exec_initCrumb. unfold initCrumb_run. rewrite Hr1. cbn [sent tick send set_cookieStr
    cookieStr]. rewrite Hr2, Hok2, Ht. cbv zeta.
  cbn [crumb cookieStr sent set_crumb tick send set_cookieStr].
  rewrite <- app_assoc. cbn [app]. fold asked. fold rq.
  rewrite Hr3, (ok_not_unauthorized _ Hok3), Hok3, Hj.
  eexists. split; [reflexivity|]. cbn. repeat split.
  unfold asked. rewrite <- (app_assoc (sent st)). reflexivity.
Qed.

Lemma fetchQuote_lazy_acquisition_witness :
  exists st',
    exec healthy (fetchQuote 1 "AAPL") empty_state
    = (Returned (makeQuote sample_chart (clock st')), st')
    /\ sent st' = (sent empty_state ++ [GetConsent; GetCrumb (Some "B=2")])
                  ++ [GetChart "AAPL" "1d" "1d" (Some "c2") (Some "B=2")]
    /\ crumb st' = Some "c2" /\ cookieStr st' = Some "B=2"
    /\ cache st' = cache empty_state.
Proof.
  exact (fetchQuote_lazy_acquisition healthy 0 "AAPL" empty_state
           {| status := 302; getSetCookie := Some ["B=2; Path=/; Secure"];
              text := inl "no body"; json := inl "no body" |}
           {| status := 200; getSetCookie := None; text := inr "c2"; json := inl "not json" |}
           (chart_response sample_chart) "c2" sample_chart
           eq_refl eq_refl eq_refl eq_refl eq_refl eq_refl eq_refl eq_refl).
Defined.

(** ** What a batch records is what it caches *)

Lemma settle_calm {A : Type} (p : async A) (st : State) :
  holds quiet anything whatever whatever p st ->
  calm (fst (settle p st))
  /\ results (snd (settle p st)) = results st
  /\ cache (snd (settle p st)) = cache st.
Proof.
  revert st. induction p as [a|m| |k IH|g k IH|rq k IH|k IH]; intros st H;
    cbn [settle fst snd calm]; try (split; [exact I|split; reflexivity]).
  - apply IH, H.
  - destruct H as [(Hr & Hc & _) H]. destruct (IH _ H) as (K1 & K2 & K3).
    split; [exact K1|]. split; congruence.
  - destruct H as [_ H]. split; [|split; reflexivity].
    intros r st'. apply H. exact I.
  - split; [|split; reflexivity]. intros st'. apply H. exact I.
Qed.

Lemma results_cached_same (st st' : State) :
  results st' = results st -> cache st' = cache st ->
  results_cached st -> results_cached st'.
Proof. intros Hr Hc [H0 H]. split; [congruence|]. intros s v. rewrite Hr, Hc. apply H. Qed.

Lemma set_result_cached (s : string) (e : Entry) (st : State) :
  results st !! "__proto__" = None ->
  (forall k v, k <> s -> results st !! k = Some (Data v) ->
               exists c, cache st !! k = Some c /\ ce_value c = v) ->
  (forall v, e = Data v -> exists c, cache st !! s = Some c /\ ce_value c = v) ->
  results_cached (set_result s e st).
Proof.
  intros H0 Hrest He. unfold set_result.
  destruct (decide (s = "__proto__")) as [->|Hp].
  - split; [exact H0|]. intros k v Hk. apply Hrest; [|exact Hk].
    intros ->. congruence.
  - split; cbn [results cache].
    + rewrite lookup_insert_ne by congruence. exact H0.
    + intros k v. destruct (decide (k = s)) as [->|Hne].
      * rewrite lookup_insert_eq. intros [= ->]. apply He. reflexivity.
      * rewrite lookup_insert_ne by congruence. apply Hrest, Hne.
Qed.

Lemma batchOutcome_cached (s : string) (p : async Quote) (st : State) :
  calm p -> results_cached st ->
  task_form s (fst (batchOutcome s (p, st)))
  /\ results_cached (snd (batchOutcome s (p, st))).
Proof.
  intros Hp Hst. destruct p as [q|m| |k|g k|rq k|k]; cbn [batchOutcome fst snd];
    try (split; [right; eexists; split; [exact Hp|reflexivity]|exact Hst]).
  - split; [left; reflexivity|]. destruct Hst as [H0 Hst]. apply set_result_cached.
    + exact H0.
    + intros k v Hne. cbn [results cache cache_set].
      rewrite lookup_insert_ne by congruence. apply Hst.
    + intros v [= <-]. cbn [cache cache_set]. rewrite lookup_insert_eq.
      eexists. split; reflexivity.
  - split; [left; reflexivity|]. destruct Hst as [H0 Hst]. apply set_result_cached.
    + exact H0.
    + intros k v _. apply Hst.
    + intros v. discriminate.
Qed.

Lemma settle_batchTask_cached (budget : nat) (s : string) (st : State) :
  results_cached st ->
  task_form s (fst (settle (batchTask budget s) st))
  /\ results_cached (snd (settle (batchTask budget s) st)).
Proof.
  intros Hst. destruct (cache_get s st) as [v|] eqn:Hget.
  - unfold batchTask, batchBody. cbn [bind get_state try_catch settle]. rewrite Hget.
    cbn [modify bind try_catch settle fst snd]. split; [left; reflexivity|].
    destruct Hst as [H0 Hst]. apply set_result_cached.
    + exact H0.
    + intros k w _. apply Hst.
    + intros w [= <-]. unfold cache_get in Hget.
      destruct (cache st !! s) as [e|]; [|discriminate].
      destruct (clock st <=? ce_expires e); [|discriminate].
      injection Hget as <-. eexists. split; reflexivity.
  - rewrite settle_batchTask_miss by exact Hget.
    destruct (settle_calm (await (fetchQuote budget s)) st) as (K1 & K2 & K3).
    { apply await_quiet, fetchQuote_quiet. }
    destruct (settle (await (fetchQuote budget s)) st) as [p st1]. cbn [fst snd] in *.
    apply batchOutcome_cached; [exact K1|].
    eapply results_cached_same; eassumption.
Qed.

Lemma resume_cached (s : string) (a : Answer) (t : async unit) (st : State) :
  task_form s t -> results_cached st ->
  task_form s (fst (resume a t st)) /\ results_cached (snd (resume a t st)).
Proof.
  intros [->|(p & Hp & ->)] Hst; [split; [left; reflexivity|exact Hst]|].
  destruct p as [q|m| |k|g k|rq k|k]; try destruct Hp;
    try (split; [right; eexists; split; [|reflexivity]; exact I|exact Hst]).
  - rewrite resume_batchAround by reflexivity. cbn [resume].
    destruct (settle_calm (k (reply a)) (tick (elapsed a) st)) as (K1 & K2 & K3);
      [apply Hp|].
    destruct (settle (k (reply a)) (tick (elapsed a) st)) as [p st1]. cbn [fst snd] in *.
    apply batchOutcome_cached; [exact K1|].
    eapply results_cached_same; [exact K2|exact K3|]. exact Hst.
  - rewrite resume_batchAround by reflexivity. cbn [resume].
    destruct (settle_calm k st) as (K1 & K2 & K3); [apply Hp|].
    destruct (settle k st) as [p st1]. cbn [fst snd] in *.
    apply batchOutcome_cached; [exact K1|].
    eapply results_cached_same; eassumption.
Qed.

Lemma pool_step_cached (syms : list string) (pool : list (async unit)) (i : nat) (a : Answer)
  (st : State) :
  Forall2 task_form syms pool -> results_cached st ->
  Forall2 task_form syms (fst (pool_step i a pool st))
  /\ results_cached (snd (pool_step i a pool st)).
Proof.
  intros H. revert i. induction H as [|s p syms pool Hp Hrest IH]; intros i Hst.
  - cbn. split; [constructor|exact Hst].
  - destruct i as [|j]; cbn [pool_step].
    + destruct (resume_cached s a p st Hp Hst) as [K1 K2].
      destruct (resume a p st) as [p' st']. cbn [fst snd] in *.
      split; [constructor; assumption|exact K2].
    + destruct (IH j Hst) as [K1 K2].
      destruct (pool_step j a pool st) as [pool' st']. cbn [fst snd] in *.
      split; [constructor; assumption|exact K2].
Qed.

Lemma run_schedule_cached (syms : list string) (schedule : list (nat * Answer))
  (pool : list (async unit)) (st : State) :
  Forall2 task_form syms pool -> results_cached st ->
  results_cached (snd (run_schedule schedule pool st)).
Proof.
  revert pool st. induction schedule as [|[i a] rest IH]; intros pool st H Hst;
    cbn [run_schedule]; [exact Hst|].
  destruct (pool_step_cached syms pool i a st H Hst) as [K1 K2].
  destruct (pool_step i a pool st) as [pool' st']. cbn [fst snd] in *.
  apply IH; assumption.
Qed.

Lemma spawn_cached (budget : nat) (syms : list string) (st : State) :
  results_cached st ->
  Forall2 task_form syms (fst (spawn (batchTask budget <$> syms) st))
  /\ results_cached (snd (spawn (batchTask budget <$> syms) st)).
Proof.
  revert st. induction syms as [|s syms IH]; intros st Hst.
  - cbn. split; [constructor|exact Hst].
  - cbn [fmap list_fmap spawn].
    destruct (settle_batchTask_cached budget s st Hst) as [K1 K2].
    destruct (settle (batchTask budget s) st) as [p st1]. cbn [fst snd] in *.
    destruct (IH st1 K2) as [Hall K3].
    change (list_fmap string (async unit) (batchTask budget) syms)
      with (batchTask budget <$> syms) in *.
    destruct (spawn (batchTask budget <$> syms) st1) as [pool st2]. cbn [fst snd] in *.
    split; [constructor; assumption|exact K3].
Qed.



(** ** The guard of [fetchHistory] *)

(** X19: on a cache miss without a token in the store, [fetchHistory]
    runs the handshake first.  If it fails, the call ends with
    [Cannot acquire Yahoo Finance crumb], no chart request is sent and the
    cache is the one found.  If it succeeds, the chart request carries the
    token just stored, and a served request returns the history built from
    the timestamp and close arrays of the payload, each taken as empty when
    the payload has none: without timestamps the history is empty. *)
Theorem fetchHistory_acquires (up : Upstream) (symbol range : string) (st : State) :
  cache_get (cacheKey symbol range) st = None ->
  JS.truthy_str (crumb st) && JS.truthy_str (cookieStr st) = false ->
  let st0 := snd (exec up initCrumb st) in
  let rq := GetChart symbol range (interval_of range) (crumb st0) (cookieStr st0) in
  (fst (exec up initCrumb st) = Returned false ->
   exec up (fetchHistory symbol range) st = (Threw "Cannot acquire Yahoo Finance crumb", st0)
   /\ chart_requests (sent st0) = chart_requests (sent st)
   /\ cache st0 = cache st)
  /\ (fst (exec up initCrumb st) = Returned true ->
      forall r c, reply (up (sent st0) rq) = Arrived r -> ok r = true -> json r = inr c ->
        let history := zipHistory (default [] (chart_timestamp c))
                                  (default [] (bar_close (quote0 c))) in
        fst (exec up (fetchHistory symbol range) st) = Returned (CHistory history)
        /\ sent (snd (exec up (fetchHistory symbol range) st)) = sent st0 ++ [rq]
        /\ (chart_timestamp c = None -> history = [])).
Proof.
  intros Hmiss Hno st0 rq.
  rewrite (exec_fetchHistory_miss _ _ _ _ Hmiss), exec_ensureToken.
  replace (negb (JS.truthy_str (crumb st)) || negb (JS.truthy_str (cookieStr st)))
    with true by (destruct (JS.truthy_str (crumb st)), (JS.truthy_str (cookieStr st));
                  cbn in *; congruence).
  pose proof (initCrumb_counts up st) as [Hcount _].
  pose proof (initCrumb_cache up st) as Hcache.
  subst rq st0. destruct (exec up initCrumb st) as [o st0]. cbn [fst snd] in *.
  split; intros ->.
  - split; [reflexivity|]. split; assumption.
  - intros r c Hr Hok Hj. cbv zeta. rewrite Hr, Hok, Hj. cbn [negb fst snd].
    split; [reflexivity|]. split; [reflexivity|].
    intros ->. reflexivity.
Qed.

Lemma fetchHistory_acquires_witness :
  fst (exec healthy (fetchHistory "AAPL" "5d") empty_state)
  = Returned (CHistory (zipHistory (default [] (chart_timestamp sample_chart))
                                   (default [] (bar_close (quote0 sample_chart)))))
  /\ sent (snd (exec healthy (fetchHistory "AAPL" "5d") empty_state))
     = [GetConsent; GetCrumb (Some "B=2"); GetChart "AAPL" "5d" "15m" (Some "c2") (Some "B=2")].
Proof.
  pose proof (fetchHistory_acquires healthy "AAPL" "5d" empty_state eq_refl eq_refl) as H.
  cbv zeta in H. destruct H as [_ H].
  destruct (H eq_refl (chart_response sample_chart) sample_chart eq_refl eq_refl eq_refl)
    as (K1 & K2 & _).
  split; [exact K1|]. rewrite K2. reflexivity.
Defined.
